(** * xii.linalg: collapsing block expressions, size inference, assembly

    A shallow embedding of [xii/linalg/convert.py] and
    [xii/linalg/function.py].

    Conventions of the embedding.
    - Python floats are idealised as exact integers ([Z]).
    - A PETSc matrix handle is a size together with its entries; the
      backend kernels (transpose, product, axpy, scale, copy) act on it
      as the usual matrix operations.
    - A Python call that raises returns [Raise e]; recursion is bounded
      by a fuel argument, one unit per call frame, and [OutOfFuel]
      stands for a call that has not returned within that depth. *)

From Stdlib Require Import ZArith List String Bool Arith Lia.
Import ListNotations.

Set Implicit Arguments.
Set Warnings "-register-all".

(** ** Exceptions and outcomes *)

(** The [assert] statements of the two modules, by what they check. *)
Inductive assertion : Type :=
| shape_mismatch      (* A_.size == B_.size, A_.size[1] == B_.size[0],
                         dims_A[1] == dims_B[0], dims == get_dims(B) *)
| block_sizes         (* len(size) == 1 in bmat_sizes *)
| not_a_matrix        (* is_petsc_mat(bmat.A) *)
| diagonal_square     (* row_sizes[i] == col_sizes[j] in convert *)
| not_collapsed       (* all(is_petsc_mat(block) or is_number(block)) *)
| index_bounds.       (* 0 <= i < len(self) in ii_Function.__getitem__ *)

Inductive exn : Type :=
| AssertionError (a : assertion)
| ValueError
| TypeError
| AttributeError
| NameError
| PyIndexError        (* the builtin raised by sequence indexing *)
| BackendError        (* a PETSc call rejects its arguments *)
| OutsideModel.       (* the result is decided by library code that this
                         development does not describe *)

(** The error kinds under their names in the design document. *)
Definition ShapeError : exn := AssertionError shape_mismatch.
Definition InconsistentBlockSizes : exn := AssertionError block_sizes.
Definition IndexError : exn := AssertionError index_bounds.
Definition UnsupportedOperation : exn := ValueError.

Inductive outcome (A : Type) : Type :=
| Ret (a : A)
| Raise (e : exn)
| OutOfFuel.

Arguments Raise {A} e.
Arguments OutOfFuel {A}.

Definition bind {A B : Type} (c : outcome A) (k : A -> outcome B) : outcome B :=
  match c with
  | Ret a => k a
  | Raise e => Raise e
  | OutOfFuel => OutOfFuel
  end.

Notation "x <- c ;; k" := (bind c (fun x => k))
  (at level 61, c at next level, right associativity).

Fixpoint mapM {A B : Type} (f : A -> outcome B) (l : list A) : outcome (list B) :=
  match l with
  | [] => Ret []
  | a :: l' => b <- f a ;; bs <- mapM f l' ;; Ret (b :: bs)
  end.

Definition returns {A : Type} (c : outcome A) : Prop := exists a, c = Ret a.

(** ** The numerical backend *)

Record matrix : Type := mkMat {
  nrows : nat;
  ncols : nat;
  coeff : nat -> nat -> Z
}.

(** Element-wise equality of two matrix handles. *)
Definition mat_eq (a b : matrix) : Prop :=
  nrows a = nrows b /\ ncols a = ncols b /\
  forall i j, i < nrows a -> j < ncols a -> coeff a i j = coeff b i j.

Definition mat_eqb (a b : matrix) : bool :=
  (nrows a =? nrows b) && (ncols a =? ncols b) &&
  forallb (fun i => forallb (fun j => (coeff a i j =? coeff b i j)%Z)
                            (seq 0 (ncols a)))
          (seq 0 (nrows a)).

Definition mat_size (a : matrix) : nat * nat := (nrows a, ncols a).

Definition size_eqb (a b : matrix) : bool :=
  (nrows a =? nrows b) && (ncols a =? ncols b).

(** [A_.transpose(C_)] *)
Definition mat_transpose (a : matrix) : matrix :=
  mkMat (ncols a) (nrows a) (fun i j => coeff a j i).

Fixpoint dot (n : nat) (f : nat -> Z) : Z :=
  match n with
  | O => 0%Z
  | S k => (dot k f + f k)%Z
  end.

(** [A_.matMult(B_, C_)] *)
Definition mat_mult (a b : matrix) : matrix :=
  mkMat (nrows a) (ncols b)
        (fun i j => dot (ncols a) (fun k => (coeff a i k * coeff b k j)%Z)).

(** [C_ = A_.copy(); C_.axpy(alpha, B_, ...)] *)
Definition mat_axpy (alpha : Z) (a b : matrix) : matrix :=
  mkMat (nrows a) (ncols a) (fun i j => (coeff a i j + alpha * coeff b i j)%Z).

(** [C_ = A_.copy(); C_.scale(s)] *)
Definition mat_scale (s : Z) (a : matrix) : matrix :=
  mkMat (nrows a) (ncols a) (fun i j => (s * coeff a i j)%Z).

(** Modelled from the spec: [diagonal_matrix(n, s)] of
    [xii.linalg.matrix_utils], the scalar [s] times the n-by-n identity. *)
Definition diagonal_matrix (n : nat) (s : Z) : matrix :=
  mkMat n n (fun i j => if i =? j then s else 0%Z).

(** ** Values and expression nodes *)

Inductive thing : Type :=
| Num (x : Z)                 (* a plain number *)
| Mat (m : matrix)            (* PETScMatrix *)
| Vec (v : list Z)            (* PETScVector, by its local values *)
| Mul (chain : list thing)    (* block_mul, attribute [chain] *)
| Add (A B : thing)           (* block_add, attributes [A], [B] *)
| Sub (A B : thing)           (* block_sub, attributes [A], [B] *)
| Tr (A : thing)              (* block_transpose, attribute [A] *)
| Repr (A : thing)            (* any other operator with an attribute [A] *)
| Other (name : string).      (* an object without these attributes *)

(** Modelled from the spec: the classification predicates of
    [xii.linalg.matrix_utils]. *)
Definition is_number (x : thing) : bool :=
  match x with Num _ => true | _ => false end.

Definition is_petsc_mat (x : thing) : bool :=
  match x with Mat _ => true | _ => false end.

Definition is_petsc_vec (x : thing) : bool :=
  match x with Vec _ => true | _ => false end.

(** Attribute access. *)
Definition getattr_A (x : thing) : outcome thing :=
  match x with
  | Add A _ | Sub A _ | Tr A | Repr A => Ret A
  | _ => Raise AttributeError
  end.

Definition getattr_B (x : thing) : outcome thing :=
  match x with
  | Add _ B | Sub _ B => Ret B
  | _ => Raise AttributeError
  end.

Definition getattr_chain (x : thing) : outcome (list thing) :=
  match x with
  | Mul c => Ret c
  | _ => Raise AttributeError
  end.

(** ** The operators [*], [+], [-] on these values

    Numbers combine as numbers.  A matrix handle or an operator node on
    either side defers the operation: cbc.block gives them [__mul__],
    [__add__], [__sub__] and the reflected versions, which build
    [block_mul], [block_add] and [block_sub]; [block_mul] splices the
    chains of its two arguments.  Operations with a vector operand are
    backend vector algebra and are left outside the model. *)

Definition block_operand (x : thing) : bool :=
  match x with
  | Mat _ | Mul _ | Add _ _ | Sub _ _ | Tr _ | Repr _ => true
  | _ => false
  end.

Definition chain_of (x : thing) : list thing :=
  match x with Mul c => c | _ => [x] end.

Definition block_mul (A B : thing) : thing := Mul (chain_of A ++ chain_of B).

Definition py_mul (x y : thing) : outcome thing :=
  match x, y with
  | Num a, Num b => Ret (Num (a * b)%Z)
  | Vec _, _ | _, Vec _ => Raise OutsideModel
  | _, _ => if block_operand x || block_operand y
            then Ret (block_mul x y) else Raise TypeError
  end.

Definition py_add (x y : thing) : outcome thing :=
  match x, y with
  | Num a, Num b => Ret (Num (a + b)%Z)
  | Vec _, _ | _, Vec _ => Raise OutsideModel
  | _, _ => if block_operand x || block_operand y
            then Ret (Add x y) else Raise TypeError
  end.

Definition py_sub (x y : thing) : outcome thing :=
  match x, y with
  | Num a, Num b => Ret (Num (a - b)%Z)
  | Vec _, _ | _, Vec _ => Raise OutsideModel
  | _, Mat _ => if block_operand x then Ret (Sub x y) else Raise OutsideModel
  | _, _ => if block_operand x || block_operand y
            then Ret (Sub x y) else Raise TypeError
  end.

(** [reduce(operator.mul, B)] *)
Fixpoint reduce_from (acc : thing) (l : list thing) : outcome thing :=
  match l with
  | [] => Ret acc
  | b :: l' => r <- py_mul acc b ;; reduce_from r l'
  end.

Definition reduce_mul (l : list thing) : outcome thing :=
  match l with
  | [] => Raise TypeError
  | b :: l' => reduce_from b l'
  end.

(** ** Dimension inference: [get_dims] *)

(** What [get_dims] returns: [None] for a number, the length of a
    vector, or the pair of a matrix-shaped operator. *)
Inductive dims : Type :=
| DNone
| DInt (n : nat)
| DPair (r c : nat).

Definition dims_eqb (a b : dims) : bool :=
  match a, b with
  | DNone, DNone => true
  | DInt n, DInt m => n =? m
  | DPair r c, DPair r' c' => (r =? r') && (c =? c')
  | _, _ => false
  end.

(** The tail of the multiplication branch:
    [assert len(dims_A) == len(dims_B)], [assert dims_A[1] == dims_B[0]],
    [return (dims_A[0], dims_B[1])]. *)
Definition mul_dims (dims_A dims_B : dims) : outcome dims :=
  match dims_A, dims_B with
  | DPair r k, DPair k' c =>
      if k =? k' then Ret (DPair r c) else Raise ShapeError
  | _, _ => Raise TypeError
  end.

Fixpoint get_dims (fuel : nat) (th : thing) {struct fuel} : outcome dims :=
  match fuel with
  | O => OutOfFuel
  | S fuel =>
      match th with
      | Vec v => Ret (DInt (List.length v))
      | Mat m => Ret (DPair (nrows m) (ncols m))
      | Num _ => Ret DNone
      | Mul chain =>
          match chain with
          | [] => Raise PyIndexError
          | A :: B =>
              dims_A <- get_dims fuel A ;;
              match B with
              | [] => Raise PyIndexError
              | B0 :: Bt =>
                  dims_B <- get_dims fuel B0 ;;
                  match dims_A, dims_B with
                  | DNone, _ => Ret dims_B
                  | _, DNone => Ret dims_A
                  | _, _ =>
                      match Bt with
                      | [] => mul_dims dims_A dims_B
                      | _ :: _ =>
                          prod_B <- reduce_mul B ;;
                          dims_B <- get_dims fuel prod_B ;;
                          mul_dims dims_A dims_B
                      end
                  end
              end
          end
      | Add A B | Sub A B =>
          if is_number A then get_dims fuel B
          else if is_number B then get_dims fuel A
          else
            dims <- get_dims fuel A ;;
            dims' <- get_dims fuel B ;;
            if dims_eqb dims dims' then Ret dims else Raise ShapeError
      | Tr A =>
          dims <- get_dims fuel A ;;
          match dims with
          | DPair r c => Ret (DPair c r)
          | _ => Raise TypeError
          end
      | Repr A =>
          if is_petsc_mat A then get_dims fuel A
          else Raise (AssertionError not_a_matrix)
      | Other _ => Raise ValueError
      end
  end.

(** ** The expression collapser *)

Fixpoint collapse (fuel : nat) (bmat : thing) {struct fuel} : outcome thing :=
  match fuel with
  | O => OutOfFuel
  | S fuel =>
      match bmat with
      | Mat _ | Num _ | Vec _ => Ret bmat
      | Mul _ => collapse_mul fuel bmat
      | Add _ _ => collapse_add fuel bmat
      | Sub _ _ => collapse_sub fuel bmat
      | Tr _ => collapse_tr fuel bmat
      | Repr A =>
          if is_petsc_mat A then Ret A
          else Raise (AssertionError not_a_matrix)
      | Other _ => Raise ValueError
      end
  end

with collapse_tr (fuel : nat) (bmat : thing) {struct fuel} : outcome thing :=
  match fuel with
  | O => OutOfFuel
  | S fuel =>
      A <- getattr_A bmat ;;
      match A with
      | Mat A_ => Ret (Mat (mat_transpose A_))
      | _ => r <- collapse fuel bmat ;; collapse_tr fuel r
      end
  end

with collapse_add (fuel : nat) (bmat : thing) {struct fuel} : outcome thing :=
  match fuel with
  | O => OutOfFuel
  | S fuel =>
      A <- getattr_A bmat ;;
      B <- getattr_B bmat ;;
      match A, B with
      | Mat A_, Mat B_ =>
          if size_eqb A_ B_ then Ret (Mat (mat_axpy 1 A_ B_))
          else Raise ShapeError
      | _, _ =>
          cA <- collapse fuel A ;;
          cB <- collapse fuel B ;;
          s <- py_add cA cB ;;
          collapse_add fuel s
      end
  end

with collapse_sub (fuel : nat) (bmat : thing) {struct fuel} : outcome thing :=
  match fuel with
  | O => OutOfFuel
  | S fuel =>
      A <- getattr_A bmat ;;
      B <- getattr_B bmat ;;
      match A, B with
      | Mat A_, Mat B_ =>
          if size_eqb A_ B_ then Ret (Mat (mat_axpy (-1) A_ B_))
          else Raise ShapeError
      | _, _ =>
          cA <- collapse fuel A ;;
          cB <- collapse fuel B ;;
          d <- py_sub cA cB ;;
          collapse_sub fuel d
      end
  end

with collapse_mul (fuel : nat) (bmat : thing) {struct fuel} : outcome thing :=
  match fuel with
  | O => OutOfFuel
  | S fuel =>
      chain <- getattr_chain bmat ;;
      match chain with
      | [] => Raise PyIndexError
      | A :: B =>
          match B with
          | [B] =>
              match A, B with
              | Mat A_, Mat B_ =>
                  if ncols A_ =? nrows B_ then Ret (Mat (mat_mult A_ B_))
                  else Raise ShapeError
              | Mat A_, Num b => Ret (Mat (mat_scale b A_))
              | Num a, Mat B_ => Ret (Mat (mat_scale a B_))
              | _, _ =>
                  cA <- collapse fuel A ;;
                  cB <- collapse fuel B ;;
                  p <- py_mul cA cB ;;
                  collapse fuel p
              end
          | _ =>
              cA <- collapse fuel A ;;
              prod_B <- reduce_mul B ;;
              cB <- collapse fuel prod_B ;;
              p <- py_mul cA cB ;;
              collapse_mul fuel p
          end
      end
  end.

(** ** Block containers *)

(** [block_mat]: a two-dimensional array of blocks, by its shape and
    its cells. *)
Record block_mat : Type := mkBlockMat {
  n_brows : nat;
  n_bcols : nat;
  blocks : nat -> nat -> thing
}.

(** What the entry points accept and return: a [block_vec], a
    [block_mat], or a single value or expression. *)
Inductive pyobj : Type :=
| BlockVec (bs : list thing)
| BlockMat (b : block_mat)
| Plain (t : thing).

Definition grid_rows {X : Type} (nr nc : nat) (f : nat -> nat -> X) : list (list X) :=
  map (fun i => map (f i) (seq 0 nc)) (seq 0 nr).

Definition grid_cols {X : Type} (nr nc : nat) (f : nat -> nat -> X) : list (list X) :=
  map (fun j => map (fun i => f i j) (seq 0 nr)) (seq 0 nc).

Definition grid_get {X : Type} (d : X) (rows : list (list X)) (i j : nat) : X :=
  nth j (nth i rows []) d.

(** ** Block sizes: [bmat_sizes] *)

(** The value of [bmat_sizes]: a tuple of [get_dims] values for a block
    vector, a pair of tuples for a block matrix. *)
Inductive sizes : Type :=
| VecSizes (ds : list dims)
| MatSizes (row_sizes col_sizes : list nat).

(** The expression [block_vec.blocks] reads the attribute on the class
    object.  The class defines methods only; [blocks] is bound on each
    instance by the constructor, so the lookup on the class fails. *)
Definition block_vec_class_blocks : outcome (list thing) := Raise AttributeError.

Definition is_none (d : dims) : bool :=
  match d with DNone => true | _ => false end.

(** [dim[k]] for [k] in {0, 1} *)
Definition dim_item (k : nat) (d : dims) : outcome nat :=
  match d with
  | DPair r c => Ret (match k with O => r | _ => c end)
  | _ => Raise TypeError
  end.

(** One pass of either loop of [bmat_sizes]:
    [size = set([dim[k] for dim in [get_dims(A) for A in cells]
                 if dim is not None])],
    [assert len(size) == 1], [size.pop()]. *)
Definition axis_size (fuel : nat) (k : nat) (cells : list thing) : outcome nat :=
  ds <- mapM (get_dims fuel) cells ;;
  size <- mapM (dim_item k) (filter (fun d => negb (is_none d)) ds) ;;
  match nodup Nat.eq_dec size with
  | [s] => Ret s
  | _ => Raise InconsistentBlockSizes
  end.

Definition bmat_sizes (fuel : nat) (bmat : pyobj) : outcome sizes :=
  match bmat with
  | BlockVec _ =>
      bs <- block_vec_class_blocks ;;
      ds <- mapM (get_dims fuel) bs ;;
      Ret (VecSizes ds)
  | BlockMat b =>
      row_sizes <- mapM (axis_size fuel 0) (grid_rows (n_brows b) (n_bcols b) (blocks b)) ;;
      col_sizes <- mapM (axis_size fuel 1) (grid_cols (n_brows b) (n_bcols b) (blocks b)) ;;
      Ret (MatSizes row_sizes col_sizes)
  | Plain _ => Raise ValueError
  end.

(** ** Conversion through the intermediate sparse format *)

(** [np.hstack([v.get_local() for v in bvec])] *)
Definition get_local (x : thing) : outcome (list Z) :=
  match x with
  | Vec v => Ret v
  | _ => Raise AttributeError
  end.

Definition block_vec_to_numpy (bvec : list thing) : outcome (list Z) :=
  arrays <- mapM get_local bvec ;;
  match arrays with
  | [] => Raise ValueError
  | _ => Ret (List.concat arrays)
  end.

(** [scipy.sparse.bmat].  The height of a block row is taken from its
    blocks that are not [None], which must agree; a row or column
    without such a block is rejected. *)
Fixpoint extent (dim : matrix -> nat) (cells : list (option matrix)) (cur : nat)
  : outcome nat :=
  match cells with
  | [] => Ret cur
  | None :: rest => extent dim rest cur
  | Some A :: rest =>
      if cur =? 0 then extent dim rest (dim A)
      else if cur =? dim A then extent dim rest cur
      else Raise ValueError
  end.

(** The block and the offset inside it of a global index. *)
Fixpoint locate (lengths : list nat) (k : nat) : option (nat * nat) :=
  match lengths with
  | [] => None
  | s :: rest =>
      if k <? s then Some (0, k)
      else match locate rest (k - s) with
           | Some (b, l) => Some (S b, l)
           | None => None
           end
  end.

Definition total (lengths : list nat) : nat := fold_right Nat.add 0 lengths.

Definition offset (lengths : list nat) (b : nat) : nat := total (firstn b lengths).

Definition numpy_block_mat (M N : nat) (blk : nat -> nat -> option matrix)
  : outcome matrix :=
  if (M =? 0) || (N =? 0) then Raise ValueError
  else
    brow_lengths <- mapM (fun row => extent nrows row 0) (grid_rows M N blk) ;;
    bcol_lengths <- mapM (fun col => extent ncols col 0) (grid_cols M N blk) ;;
    if existsb (Nat.eqb 0) brow_lengths || existsb (Nat.eqb 0) bcol_lengths
    then Raise ValueError
    else Ret (mkMat (total brow_lengths) (total bcol_lengths)
                (fun I J =>
                   match locate brow_lengths I, locate bcol_lengths J with
                   | Some (i, r), Some (j, c) =>
                       match blk i j with
                       | Some A => coeff A r c
                       | None => 0%Z
                       end
                   | _, _ => 0%Z
                   end)).

(** [block_mat_to_numpy] on a cell: a matrix becomes its compressed-row
    form, a number becomes [None]; anything else has no [blocks]. *)
Definition cell_to_numpy (x : thing) : outcome (option matrix) :=
  match x with
  | Mat m => Ret (Some m)
  | Num _ => Ret None
  | _ => Raise AttributeError
  end.

Definition block_mat_to_numpy (bmat : pyobj) : outcome (option matrix) :=
  match bmat with
  | Plain x => cell_to_numpy x
  | BlockMat b =>
      cells <- mapM (mapM cell_to_numpy) (grid_rows (n_brows b) (n_bcols b) (blocks b)) ;;
      m <- numpy_block_mat (n_brows b) (n_bcols b) (grid_get None cells) ;;
      Ret (Some m)
  | BlockVec bs =>
      _ <- mapM cell_to_numpy bs ;;
      Raise ValueError
  end.

(** [numpy_to_petsc]: builds the matrix handle from the compressed rows. *)
Definition numpy_to_petsc (mat : option matrix) : outcome pyobj :=
  match mat with
  | Some m => Ret (Plain (Mat m))
  | None => Raise AttributeError
  end.

(** ** [convert] *)

(** The body of the loop over the blocks of a block matrix. *)
Definition convert_block (fuel : nat) (row_sizes col_sizes : list nat)
           (i j : nat) (block : thing) : outcome thing :=
  A <- collapse fuel block ;;
  match A with
  | Num a =>
      if (a =? 0)%Z then Ret (Num 0)
      else if nth i row_sizes 0 =? nth j col_sizes 0
           then Ret (Mat (diagonal_matrix (nth i row_sizes 0) a))
           else Raise (AssertionError diagonal_square)
  | _ => Ret A
  end.

Definition convert (fuel : nat) (bmat : pyobj) (algorithm : bool) : outcome pyobj :=
  match bmat with
  | BlockVec bs =>
      array <- block_vec_to_numpy bs ;;
      Ret (Plain (Vec array))
  | BlockMat b =>
      sz <- bmat_sizes fuel bmat ;;
      match sz with
      | MatSizes row_sizes col_sizes =>
          let nr := List.length row_sizes in
          let nc := List.length col_sizes in
          cells <- mapM (fun i =>
                     mapM (fun j => convert_block fuel row_sizes col_sizes i j (blocks b i j))
                          (seq 0 nc))
                   (seq 0 nr) ;;
          let collapsed := mkBlockMat nr nc (grid_get (Num 0) cells) in
          if forallb (forallb (fun x => is_petsc_mat x || is_number x)) cells
          then
            if algorithm
            then array <- block_mat_to_numpy (BlockMat collapsed) ;;
                 numpy_to_petsc array
            else Ret (BlockMat collapsed)
          else Raise (AssertionError not_collapsed)
      | VecSizes _ => Raise TypeError
      end
  | Plain x =>
      r <- collapse fuel x ;;
      Ret (Plain r)
  end.

(** ** Row-streamed assembly: [block_mat_to_petsc] *)

(** A sparse row: column indices with their values. *)
Definition sparse_row : Type := list (nat * Z).

(** [matrix.getrow(i)]; an entry that is not stored is zero, so the row
    is taken over all its columns. *)
Definition getrow (m : matrix) (i : nat) : sparse_row :=
  map (fun j => (j, coeff m i j)) (seq 0 (ncols m)).

(** The generator [iter_rows(matrix)]; its body runs at the first
    [next], where a block without [size] raises. *)
Definition iter_rows (x : thing) : outcome (list sparse_row) :=
  match x with
  | Mat m => Ret (map (getrow m) (seq 0 (nrows m)))
  | _ => Raise AttributeError
  end.

(** The first round of [itertools.izip]: the iterators are advanced in
    order; the first one that is exhausted ends the iteration, the
    first one that raises propagates. *)
Fixpoint izip_start (its : list (outcome (list sparse_row)))
  : outcome (option (list (list sparse_row))) :=
  match its with
  | [] => Ret (Some [])
  | it :: rest =>
      rows <- it ;;
      match rows with
      | [] => Ret None
      | _ :: _ =>
          r <- izip_start rest ;;
          Ret (match r with Some l => Some (rows :: l) | None => None end)
      end
  end.

Definition min_length {X : Type} (ls : list (list X)) : nat :=
  match ls with
  | [] => 0
  | l :: rest => fold_right (fun l' n => Nat.min (List.length l') n) (List.length l) rest
  end.

(** The tuples that [izip] yields once every iterator is a list. *)
Definition izip (ls : list (list sparse_row)) : list (list sparse_row) :=
  map (fun k => map (fun l => nth k l []) ls) (seq 0 (min_length ls)).

(** [np.cumsum([0] + list(sizes))] *)
Fixpoint cumsum_from (acc : nat) (l : list nat) : list nat :=
  match l with
  | [] => []
  | x :: rest => (acc + x) :: cumsum_from (acc + x) rest
  end.

Definition cumsum0 (l : list nat) : list nat := 0 :: cumsum_from 0 l.

Definition shift_row (off : nat) (r : sparse_row) : sparse_row :=
  map (fun jv => (fst jv + off, snd jv)) r.

(** One global row: the rows of the blocks, each shifted by the offset
    of its block column, concatenated. *)
Definition global_row (col_offsets : list nat) (indices_values : list sparse_row)
  : sparse_row :=
  List.concat (map (fun ro => shift_row (snd ro) (fst ro))
                   (combine indices_values col_offsets)).

Definition stream_block_row (col_offsets : list nat) (row_blocks : list thing)
  : outcome (list sparse_row) :=
  started <- izip_start (map iter_rows row_blocks) ;;
  match started with
  | None => Ret []
  | Some ls => Ret (map (global_row col_offsets) (izip ls))
  end.

Fixpoint row_lookup (r : sparse_row) (J : nat) : Z :=
  match r with
  | [] => 0%Z
  | (j, v) :: rest => if j =? J then v else row_lookup rest J
  end.

(** The matrix of [petsc_serial_matrix(R, C)] after the rows have been
    set with [setValues]; an index outside the matrix is a PETSc
    error. *)
Definition assemble_rows (R C : nat) (rows : list sparse_row) : outcome matrix :=
  if (List.length rows <=? R)
     && forallb (forallb (fun jv => fst jv <? C)) rows
  then Ret (mkMat R C (fun I J => row_lookup (nth I rows []) J))
  else Raise BackendError.

(** The body of [block_mat_to_petsc], given what the global name used
    for the block sizes is bound to. *)
Definition block_mat_to_petsc_with (get_sizes : option (pyobj -> outcome sizes))
           (bmat : block_mat) : outcome pyobj :=
  match get_sizes with
  | None => Raise NameError
  | Some get_sizes =>
      sz <- get_sizes (BlockMat bmat) ;;
      match sz with
      | MatSizes row_sizes col_sizes =>
          let row_offsets := cumsum0 row_sizes in
          let col_offsets := cumsum0 col_sizes in
          rows <- mapM (stream_block_row col_offsets)
                       (grid_rows (n_brows bmat) (n_bcols bmat) (blocks bmat)) ;;
          mat <- assemble_rows (last row_offsets 0) (last col_offsets 0)
                               (List.concat rows) ;;
          Ret (Plain (Mat mat))
      | VecSizes _ => Raise TypeError
      end
  end.

(** The functions from a block container to its sizes that are bound
    at module level in [convert.py]: there is one, [bmat_sizes].  No
    import and no definition binds any other such name. *)
Definition module_sizes_function (fuel : nat) (name : string)
  : option (pyobj -> outcome sizes) :=
  if String.eqb name "bmat_sizes" then Some (bmat_sizes fuel) else None.

(** [block_mat_to_petsc] asks for the sizes under the name [get_sizes]. *)
Definition block_mat_to_petsc (fuel : nat) (bmat : block_mat) : outcome pyobj :=
  block_mat_to_petsc_with (module_sizes_function fuel "get_sizes") bmat.

(** ** [ii_Function]: a list of component functions *)

Section II_FUNCTION.

(** The component functions, whatever they are. *)
Variable Function : Type.

Record ii_Function : Type := mk_ii_Function {
  functions : list Function
}.

(** [__len__] *)
Definition ii_len (self : ii_Function) : Z :=
  Z.of_nat (List.length (functions self)).

(** Indexing a Python list with an index already known to be
    non-negative. *)
Definition list_item (l : list Function) (i : Z) : outcome Function :=
  match nth_error l (Z.to_nat i) with
  | Some f => Ret f
  | None => Raise PyIndexError
  end.

(** [__getitem__] *)
Definition ii_getitem (self : ii_Function) (i : Z) : outcome Function :=
  if ((0 <=? i) && (i <? ii_len self))%Z
  then list_item (functions self) i
  else Raise IndexError.

(** [__iter__]: the values yielded, in order. *)
Definition ii_iter (self : ii_Function) : outcome (list Function) :=
  mapM (fun i => ii_getitem self (Z.of_nat i))
       (seq 0 (Z.to_nat (ii_len self))).

End II_FUNCTION.

(** ** Notions used in the statements *)

(** A computation that has not run out of fuel. *)
Definition answered {A : Type} (c : outcome A) : Prop := c <> OutOfFuel.

(** A cell whose dimensions are inferred: [get_dims] returns [None]
    for it, or a pair. *)
Definition inferable (fuel : nat) (x : thing) : Prop :=
  get_dims fuel x = Ret DNone \/ exists r c, get_dims fuel x = Ret (DPair r c).

Definition dims_of (fuel : nat) (x : thing) : dims :=
  match get_dims fuel x with
  | Ret d => d
  | _ => DNone
  end.

Definition pick (k r c : nat) : nat := match k with O => r | _ => c end.

Definition pair_sizes (k : nat) (ds : list dims) : list nat :=
  flat_map (fun d => match d with DPair r c => [pick k r c] | _ => [] end) ds.

(** The cells of a block row and of a block column. *)
Definition row_cells (b : block_mat) (i : nat) : list thing :=
  map (blocks b i) (seq 0 (n_bcols b)).

Definition col_cells (b : block_mat) (j : nat) : list thing :=
  map (fun i => blocks b i j) (seq 0 (n_brows b)).

(** What the loop of [convert] leaves in a cell that holds a number or
    a matrix. *)
Definition promoted (rs cs : list nat) (i j : nat) (x : thing) : thing :=
  match x with
  | Num z => if (z =? 0)%Z then Num 0
             else Mat (diagonal_matrix (nth i rs 0) z)
  | _ => x
  end.

Definition csr_of (x : thing) : option matrix :=
  match x with
  | Mat m => Some m
  | _ => None
  end.

(** The entries that a cell contributes to the assembled matrix. *)
Definition cell_entry (x : thing) (r c : nat) : Z :=
  match x with
  | Num z => if (z =? 0)%Z then 0%Z else if r =? c then z else 0%Z
  | Mat a => coeff a r c
  | _ => 0%Z
  end.

Definition promoted_cell (rs cs : list nat) (b : block_mat) (i j : nat) : thing :=
  promoted rs cs i j (blocks b i j).

(** The grid handed to [scipy.sparse.bmat]. *)
Definition csr_cell (rs cs : list nat) (b : block_mat) (i j : nat) : option matrix :=
  grid_get None (grid_rows (n_brows b) (n_bcols b)
                           (fun i j => csr_of (promoted_cell rs cs b i j))) i j.

(** ** Sample data *)

Definition ones (r c : nat) : matrix := mkMat r c (fun _ _ => 1%Z).

(** A block matrix from its rows, as [block_mat([[...], ...])] builds
    it. *)
Definition block_mat_of (nr nc : nat) (rows : list (list thing)) : block_mat :=
  mkBlockMat nr nc (grid_get (Num 0) rows).

(** Three matrix blocks and a number. *)
Definition grid_with_number : block_mat :=
  block_mat_of 2 2 [[Mat (ones 3 3); Mat (ones 3 2)];
                    [Mat (ones 2 3); Num 0]].

(** A block row whose two matrices have three and two rows. *)
Definition grid_uneven : block_mat :=
  block_mat_of 1 2 [[Mat (ones 3 3); Mat (ones 2 2)]].

(** Two 1-by-1 matrices on the diagonal, the number 5 above it. *)
Definition grid_offdiag : block_mat :=
  block_mat_of 2 2 [[Mat (ones 1 1); Num 5];
                    [Num 0; Mat (ones 1 1)]].

(** Numbers on the diagonal, 2-by-2 matrices off it. *)
Definition grid_diag : block_mat :=
  block_mat_of 2 2 [[Num 2; Mat (ones 2 2)];
                    [Mat (ones 2 2); Num 0]].

(** The grid of the scenario: [[A*A, B+B], [2*C - C, D*D*D]] with A
    3-by-3, B 3-by-2, C 2-by-3 and D 2-by-2. *)
Definition grid_scenario : block_mat :=
  block_mat_of 2 2
    [[Mul [Mat (ones 3 3); Mat (ones 3 3)];
      Add (Mat (ones 3 2)) (Mat (ones 3 2))];
     [Sub (Mul [Num 2; Mat (ones 2 3)]) (Mat (ones 2 3));
      Mul [Mat (ones 2 2); Mat (ones 2 2); Mat (ones 2 2)]]].

(** The rule for number cells in the words of the design document: a
    number off the diagonal, whatever its value, gives a zero block; a
    non-zero number on the diagonal of a square position gives that
    number times the identity. *)
Definition scalars_as_stated (fuel : nat) (b : block_mat) : Prop :=
  forall rs cs m,
    bmat_sizes fuel (BlockMat b) = Ret (MatSizes rs cs) ->
    convert fuel (BlockMat b) true = Ret (Plain (Mat m)) ->
    forall i j z,
      i < n_brows b -> j < n_bcols b -> blocks b i j = Num z ->
      (i <> j ->
       forall r c, r < nth i rs 0 -> c < nth j cs 0 ->
                   coeff m (offset rs i + r) (offset cs j + c) = 0%Z) /\
      (i = j -> z <> 0%Z -> nth i rs 0 = nth j cs 0 ->
       forall r c, r < nth i rs 0 -> c < nth j cs 0 ->
                   coeff m (offset rs i + r) (offset cs j + c)
                   = if r =? c then z else 0%Z).

(** Numbers only: 5 on the diagonal, zeros elsewhere. *)
Definition grid_numbers : block_mat :=
  block_mat_of 2 2 [[Num 5; Num 0];
                    [Num 0; Num 5]].

(** A square block matrix with the number [s] on the diagonal and the
    number zero elsewhere. *)
Definition scalar_diagonal (b : block_mat) (s : Z) : Prop :=
  n_brows b = n_bcols b /\
  forall i j, i < n_brows b -> j < n_bcols b ->
              blocks b i j = Num (if i =? j then s else 0%Z).

(** The consequence drawn in the design document: a square block matrix
    with a non-zero number [s] on the diagonal and zero elsewhere is
    assembled to [s] times the identity. *)
Definition diagonal_promotion_as_stated (b : block_mat) (s : Z) : Prop :=
  scalar_diagonal b s -> s <> 0%Z ->
  exists fuel m,
    convert fuel (BlockMat b) true = Ret (Plain (Mat m)) /\
    mat_eq m (diagonal_matrix (nrows m) s).

(** ** Further notions *)

(** What [collapse] is meant to return: a number, a matrix handle or a
    vector handle. *)
Definition is_value (x : thing) : bool :=
  is_number x || is_petsc_mat x || is_petsc_vec x.

(** The nodes that are reduced to a matrix: sums, differences,
    transposes and operators that carry their matrix. *)
Definition matrix_node (x : thing) : bool :=
  match x with
  | Add _ _ | Sub _ _ | Tr _ | Repr _ => true
  | _ => false
  end.

(** The number of nodes of an expression, handles and numbers counted
    as one. *)
Fixpoint weight (t : thing) : nat :=
  match t with
  | Num _ | Mat _ | Vec _ | Other _ => 1
  | Mul chain =>
      S ((fix sum (l : list thing) : nat :=
            match l with
            | [] => 0
            | x :: rest => weight x + sum rest
            end) chain)
  | Add A B | Sub A B => S (weight A + weight B)
  | Tr A | Repr A => S (weight A)
  end.

Definition weights (l : list thing) : nat :=
  fold_right (fun x n => weight x + n) 0 l.

(** The dimensions of a value, as [get_dims] reports them. *)
Definition dims_val (v : thing) : dims :=
  match v with
  | Mat m => DPair (nrows m) (ncols m)
  | Vec w => DInt (List.length w)
  | _ => DNone
  end.

(** Expressions whose products have exactly two operands. *)
Fixpoint binary (t : thing) : bool :=
  match t with
  | Mul chain =>
      match chain with
      | [A; B] => binary A && binary B
      | _ => false
      end
  | Add A B | Sub A B => binary A && binary B
  | Tr A | Repr A => binary A
  | _ => true
  end.

(** ** Building an [ii_Function] *)

(** A function space, by its name and its dimension, and a function:
    its space and its coefficient vector. *)
Record FunctionSpace : Type := mkSpace {
  space_name : string;
  dim : nat
}.

Record fe_function : Type := mkFunction {
  function_space : FunctionSpace;
  vector : list Z
}.

(** A component handed to the constructor: a function or a vector. *)
Inductive component : Type :=
| CompFunction (f : fe_function)
| CompVector (v : list Z).

(** How the constructor fails. *)
Inductive init_error : Type :=
| LengthMismatch      (* assert len(components) == len(W) *)
| StopIteration       (* first(components) on an empty sequence *)
| DimMismatch         (* assert all(c.size() == Wi.dim() ...) *)
| FunctionComponents. (* the branch that copies functions, not described here *)

(** [Function(Wi)]: the zero function of the space. *)
Definition new_function (Wi : FunctionSpace) : fe_function :=
  mkFunction Wi (repeat 0%Z (dim Wi)).

(** The vector branch over [zip(components, W)]: the size check of
    [all(...)] stops at the first component that fails it. *)
Fixpoint wrap_vectors (components : list component) (W : list FunctionSpace)
  : init_error + list fe_function :=
  match components, W with
  | c :: components', Wi :: W' =>
      match c with
      | CompFunction _ => inl FunctionComponents
      | CompVector v =>
          if List.length v =? dim Wi
          then match wrap_vectors components' W' with
               | inr fs => inr (mkFunction Wi v :: fs)
               | inl e => inl e
               end
          else inl DimMismatch
      end
  | _, _ => inr []
  end.

(** [ii_Function.__init__] *)
Definition ii_init (W : list FunctionSpace) (components : option (list component))
  : init_error + ii_Function fe_function :=
  match components with
  | None => inr (mk_ii_Function (map new_function W))
  | Some components =>
      if List.length components =? List.length W
      then match components with
           | [] => inl StopIteration
           | CompFunction _ :: _ => inl FunctionComponents
           | CompVector _ :: _ =>
               match wrap_vectors components W with
               | inr fs => inr (mk_ii_Function fs)
               | inl e => inl e
               end
           end
      else inl LengthMismatch
  end.

(** [vectors] and [block_vec] *)
Definition ii_vectors (self : ii_Function fe_function) : list (list Z) :=
  map vector (functions self).

Definition ii_block_vec (self : ii_Function fe_function) : pyobj :=
  BlockVec (map Vec (ii_vectors self)).

(** A grid of binary expressions and the grid of its collapsed blocks. *)
Definition grid_binary : block_mat :=
  block_mat_of 2 2
    [[Mul [Mat (ones 3 3); Mat (ones 3 3)];
      Add (Mat (ones 3 2)) (Mat (ones 3 2))];
     [Sub (Mul [Num 2; Mat (ones 2 3)]) (Mat (ones 2 3));
      Mul [Mat (ones 2 2); Mat (ones 2 2)]]].

Definition grid_binary_collapsed : block_mat :=
  block_mat_of 2 2
    [[Mat (mat_mult (ones 3 3) (ones 3 3));
      Mat (mat_axpy 1 (ones 3 2) (ones 3 2))];
     [Mat (mat_axpy (-1) (mat_scale 2 (ones 2 3)) (ones 2 3));
      Mat (mat_mult (ones 2 2) (ones 2 2))]].

(** * Properties *)

(** ** Unfolding equations *)

Lemma collapse_S (fuel : nat) (bmat : thing) :
  collapse (S fuel) bmat =
  match bmat with
  | Mat _ | Num _ | Vec _ => Ret bmat
  | Mul _ => collapse_mul fuel bmat
  | Add _ _ => collapse_add fuel bmat
  | Sub _ _ => collapse_sub fuel bmat
  | Tr _ => collapse_tr fuel bmat
  | Repr A => if is_petsc_mat A then Ret A else Raise (AssertionError not_a_matrix)
  | Other _ => Raise ValueError
  end.
Proof. reflexivity. Qed.

Lemma collapse_tr_S (fuel : nat) (bmat : thing) :
  collapse_tr (S fuel) bmat =
  (A <- getattr_A bmat ;;
   match A with
   | Mat A_ => Ret (Mat (mat_transpose A_))
   | _ => r <- collapse fuel bmat ;; collapse_tr fuel r
   end).
Proof. reflexivity. Qed.

Lemma collapse_add_S (fuel : nat) (bmat : thing) :
  collapse_add (S fuel) bmat =
  (A <- getattr_A bmat ;;
   B <- getattr_B bmat ;;
   match A, B with
   | Mat A_, Mat B_ =>
       if size_eqb A_ B_ then Ret (Mat (mat_axpy 1 A_ B_)) else Raise ShapeError
   | _, _ =>
       cA <- collapse fuel A ;;
       cB <- collapse fuel B ;;
       s <- py_add cA cB ;;
       collapse_add fuel s
   end).
Proof. reflexivity. Qed.

Lemma collapse_sub_S (fuel : nat) (bmat : thing) :
  collapse_sub (S fuel) bmat =
  (A <- getattr_A bmat ;;
   B <- getattr_B bmat ;;
   match A, B with
   | Mat A_, Mat B_ =>
       if size_eqb A_ B_ then Ret (Mat (mat_axpy (-1) A_ B_)) else Raise ShapeError
   | _, _ =>
       cA <- collapse fuel A ;;
       cB <- collapse fuel B ;;
       d <- py_sub cA cB ;;
       collapse_sub fuel d
   end).
Proof. reflexivity. Qed.

Lemma collapse_O (bmat : thing) : collapse 0 bmat = OutOfFuel.
Proof. reflexivity. Qed.

Lemma collapse_leaf (fuel : nat) (x : thing) :
  is_number x || is_petsc_mat x || is_petsc_vec x = true ->
  collapse (S fuel) x = Ret x.
Proof. destruct x; simpl; intros H; try discriminate; reflexivity. Qed.

(** ** The transpose reducer *)

(** [collapse_tr] passes the node itself back to [collapse], which
    dispatches to [collapse_tr] again: with an operand that is not a
    matrix handle no call ever returns. *)
Lemma collapse_tr_stuck (A : thing) :
  is_petsc_mat A = false ->
  forall fuel,
    collapse fuel (Tr A) = OutOfFuel /\ collapse_tr fuel (Tr A) = OutOfFuel.
Proof.
  intros HA fuel. induction fuel as [|fuel [IHc IHt]].
  - split; reflexivity.
  - split.
    + rewrite collapse_S. exact IHt.
    + rewrite collapse_tr_S. cbn [getattr_A bind].
      destruct A; try discriminate; rewrite IHc; reflexivity.
Qed.

(** With a matrix handle as operand the base case applies. *)
Lemma collapse_tr_base (fuel : nat) (m : matrix) :
  collapse (S (S fuel)) (Tr (Mat m)) = Ret (Mat (mat_transpose m)).
Proof. reflexivity. Qed.

(** ** The sum reducer with a number as operand *)

Lemma collapse_add_number_stuck (m : matrix) (z : Z) :
  forall fuel,
    collapse_add fuel (Add (Mat m) (Num z)) = OutOfFuel.
Proof.
  induction fuel as [|fuel IH].
  - reflexivity.
  - rewrite collapse_add_S. cbn [getattr_A getattr_B bind].
    destruct fuel as [|fuel'].
    + reflexivity.
    + rewrite !collapse_S. cbn [bind py_add block_operand orb]. exact IH.
Qed.

(** ** More fuel never changes an answer *)

Lemma collapse_mul_S (fuel : nat) (bmat : thing) :
  collapse_mul (S fuel) bmat =
  (chain <- getattr_chain bmat ;;
   match chain with
   | [] => Raise PyIndexError
   | A :: B =>
       match B with
       | [B] =>
           match A, B with
           | Mat A_, Mat B_ =>
               if ncols A_ =? nrows B_ then Ret (Mat (mat_mult A_ B_))
               else Raise ShapeError
           | Mat A_, Num b => Ret (Mat (mat_scale b A_))
           | Num a, Mat B_ => Ret (Mat (mat_scale a B_))
           | _, _ =>
               cA <- collapse fuel A ;;
               cB <- collapse fuel B ;;
               p <- py_mul cA cB ;;
               collapse fuel p
           end
       | _ =>
           cA <- collapse fuel A ;;
           prod_B <- reduce_mul B ;;
           cB <- collapse fuel prod_B ;;
           p <- py_mul cA cB ;;
           collapse_mul fuel p
       end
   end).
Proof. reflexivity. Qed.


Lemma bind_answered {A B : Type} (c : outcome A) (k : A -> outcome B) :
  answered (bind c k) ->
  (exists a, c = Ret a /\ answered (k a)) \/ (exists e, c = Raise e).
Proof.
  destruct c as [a|e|]; simpl; intros H.
  - left. exists a. split; [reflexivity|exact H].
  - right. exists e. reflexivity.
  - exfalso. apply H. reflexivity.
Qed.

(** A step of the proofs below: a call at the smaller fuel that occurs
    first in a computation with an answer has an answer itself, and
    the induction hypothesis carries it to the larger fuel. *)
Ltac fuel_step IH :=
  match goal with
  | H : answered (bind ?c _) |- _ =>
      let a := fresh "a" in
      let e := fresh "e" in
      let E := fresh "E" in
      let Ha := fresh "Ha" in
      destruct (bind_answered _ _ H) as [[a [E Ha]] | [e E]];
      clear H;
      [ try (rewrite (IH _ _ E) by discriminate);
        try rewrite E; cbn [bind] in *
      | try (rewrite (IH _ _ E) by discriminate);
        try rewrite E; cbn [bind] in *; try reflexivity ]
  end.

Lemma get_dims_unfold (fuel : nat) (th : thing) :
  get_dims (S fuel) th =
  match th with
  | Vec v => Ret (DInt (List.length v))
  | Mat m => Ret (DPair (nrows m) (ncols m))
  | Num _ => Ret DNone
  | Mul chain =>
      match chain with
      | [] => Raise PyIndexError
      | A :: B =>
          dims_A <- get_dims fuel A ;;
          match B with
          | [] => Raise PyIndexError
          | B0 :: Bt =>
              dims_B <- get_dims fuel B0 ;;
              match dims_A, dims_B with
              | DNone, _ => Ret dims_B
              | _, DNone => Ret dims_A
              | _, _ =>
                  match Bt with
                  | [] => mul_dims dims_A dims_B
                  | _ :: _ =>
                      prod_B <- reduce_mul B ;;
                      dims_B <- get_dims fuel prod_B ;;
                      mul_dims dims_A dims_B
                  end
              end
          end
      end
  | Add A B | Sub A B =>
      if is_number A then get_dims fuel B
      else if is_number B then get_dims fuel A
      else
        dims <- get_dims fuel A ;;
        dims' <- get_dims fuel B ;;
        if dims_eqb dims dims' then Ret dims else Raise ShapeError
  | Tr A =>
      dims <- get_dims fuel A ;;
      match dims with
      | DPair r c => Ret (DPair c r)
      | _ => Raise TypeError
      end
  | Repr A =>
      if is_petsc_mat A then get_dims fuel A
      else Raise (AssertionError not_a_matrix)
  | Other _ => Raise ValueError
  end.
Proof. reflexivity. Qed.

Lemma get_dims_S (fuel : nat) :
  forall th r, get_dims fuel th = r -> answered r -> get_dims (S fuel) th = r.
Proof.
  induction fuel as [|fuel IH]; intros th r H Hr.
  - simpl in H. subst r. exfalso. apply Hr. reflexivity.
  - subst r. revert Hr.
    rewrite (get_dims_unfold (S fuel) th), (get_dims_unfold fuel th).
    destruct th as [x|m|v|chain|A B|A B|A|A|name]; intros Hr; try reflexivity.
    + destruct chain as [|A B]; [reflexivity|].
      fuel_step IH.
      destruct B as [|B0 Bt]; [reflexivity|].
      fuel_step IH.
      destruct a, a0; try reflexivity;
        (destruct Bt as [|B1 Bt]; [reflexivity|]);
        (destruct (reduce_mul (B0 :: B1 :: Bt)) as [p|e'|]; cbn [bind] in *;
         [ fuel_step IH; reflexivity | reflexivity | reflexivity ]).
    + destruct (is_number A); [apply IH; [reflexivity|exact Hr]|].
      destruct (is_number B); [apply IH; [reflexivity|exact Hr]|].
      fuel_step IH. fuel_step IH. reflexivity.
    + destruct (is_number A); [apply IH; [reflexivity|exact Hr]|].
      destruct (is_number B); [apply IH; [reflexivity|exact Hr]|].
      fuel_step IH. fuel_step IH. reflexivity.
    + fuel_step IH. reflexivity.
    + destruct (is_petsc_mat A); [apply IH; [reflexivity|exact Hr]|reflexivity].
Qed.

Lemma get_dims_mono (fuel fuel' : nat) (th : thing) (r : outcome dims) :
  get_dims fuel th = r -> answered r -> fuel <= fuel' -> get_dims fuel' th = r.
Proof.
  intros H Hr Hle. induction Hle as [|k Hle IH].
  - exact H.
  - apply get_dims_S; assumption.
Qed.

Ltac fuel_step5 IHc IHt IHa IHs IHm :=
  match goal with
  | H : answered (bind ?c _) |- _ =>
      let a := fresh "a" in
      let e := fresh "e" in
      let E := fresh "E" in
      let Ha := fresh "Ha" in
      destruct (bind_answered _ _ H) as [[a [E Ha]] | [e E]];
      clear H;
      try first [ rewrite (IHc _ _ E) by discriminate
                | rewrite (IHt _ _ E) by discriminate
                | rewrite (IHa _ _ E) by discriminate
                | rewrite (IHs _ _ E) by discriminate
                | rewrite (IHm _ _ E) by discriminate ];
      try rewrite E; cbn [bind] in *; try reflexivity
  end.

Ltac fuel_tail IHc IHt IHa IHs IHm :=
  match goal with
  | H : answered ?c |- _ = ?c =>
      first [ apply IHc; [reflexivity | exact H]
            | apply IHt; [reflexivity | exact H]
            | apply IHa; [reflexivity | exact H]
            | apply IHs; [reflexivity | exact H]
            | apply IHm; [reflexivity | exact H] ]
  end.

Lemma collapse_S_all (fuel : nat) :
  (forall b r, collapse fuel b = r -> answered r -> collapse (S fuel) b = r) /\
  (forall b r, collapse_tr fuel b = r -> answered r -> collapse_tr (S fuel) b = r) /\
  (forall b r, collapse_add fuel b = r -> answered r -> collapse_add (S fuel) b = r) /\
  (forall b r, collapse_sub fuel b = r -> answered r -> collapse_sub (S fuel) b = r) /\
  (forall b r, collapse_mul fuel b = r -> answered r -> collapse_mul (S fuel) b = r).
Proof.
  induction fuel as [|fuel (IHc & IHt & IHa & IHs & IHm)].
  - repeat split; intros b r H Hr; simpl in H; subst r; exfalso; apply Hr; reflexivity.
  - repeat split; intros b r H Hr; subst r; revert Hr.
    + rewrite (collapse_S (S fuel) b), (collapse_S fuel b).
      destruct b; intros Hr; try reflexivity;
        fuel_tail IHc IHt IHa IHs IHm.
    + rewrite (collapse_tr_S (S fuel) b), (collapse_tr_S fuel b). intros Hr.
      fuel_step5 IHc IHt IHa IHs IHm.
      destruct a; try reflexivity;
        (fuel_step5 IHc IHt IHa IHs IHm; fuel_tail IHc IHt IHa IHs IHm).
    + rewrite (collapse_add_S (S fuel) b), (collapse_add_S fuel b). intros Hr.
      fuel_step5 IHc IHt IHa IHs IHm.
      fuel_step5 IHc IHt IHa IHs IHm.
      destruct a, a0; try reflexivity;
        (fuel_step5 IHc IHt IHa IHs IHm;
         fuel_step5 IHc IHt IHa IHs IHm;
         fuel_step5 IHc IHt IHa IHs IHm;
         fuel_tail IHc IHt IHa IHs IHm).
    + rewrite (collapse_sub_S (S fuel) b), (collapse_sub_S fuel b). intros Hr.
      fuel_step5 IHc IHt IHa IHs IHm.
      fuel_step5 IHc IHt IHa IHs IHm.
      destruct a, a0; try reflexivity;
        (fuel_step5 IHc IHt IHa IHs IHm;
         fuel_step5 IHc IHt IHa IHs IHm;
         fuel_step5 IHc IHt IHa IHs IHm;
         fuel_tail IHc IHt IHa IHs IHm).
    + rewrite (collapse_mul_S (S fuel) b), (collapse_mul_S fuel b). intros Hr.
      fuel_step5 IHc IHt IHa IHs IHm.
      destruct a as [|A B]; [reflexivity|].
      destruct B as [|B0 Bt].
      * fuel_step5 IHc IHt IHa IHs IHm.
      * destruct Bt as [|B1 Bt].
        -- destruct A, B0; try reflexivity;
             (fuel_step5 IHc IHt IHa IHs IHm;
              fuel_step5 IHc IHt IHa IHs IHm;
              fuel_step5 IHc IHt IHa IHs IHm;
              fuel_tail IHc IHt IHa IHs IHm).
        -- fuel_step5 IHc IHt IHa IHs IHm.
           fuel_step5 IHc IHt IHa IHs IHm.
           fuel_step5 IHc IHt IHa IHs IHm.
           fuel_step5 IHc IHt IHa IHs IHm.
           fuel_tail IHc IHt IHa IHs IHm.
Qed.

Lemma collapse_mono (fuel fuel' : nat) (b : thing) (r : outcome thing) :
  collapse fuel b = r -> answered r -> fuel <= fuel' -> collapse fuel' b = r.
Proof.
  intros H Hr Hle. induction Hle as [|k Hle IH].
  - exact H.
  - apply (proj1 (collapse_S_all k)); assumption.
Qed.

(** ** Shapes of multiplication chains *)

(** The product of a three-operand chain that starts with a number. *)
Lemma collapse_scalar_chain (s : Z) (A B : matrix) (fuel : nat) :
  ncols A = nrows B ->
  collapse (4 + fuel) (Mul [Num s; Mat A; Mat B])
  = Ret (Mat (mat_scale s (mat_mult A B))).
Proof.
  intros H.
  apply collapse_mono with (fuel := 4); [|discriminate|lia].
  cbn. rewrite H, Nat.eqb_refl. reflexivity.
Qed.

(** [get_dims] on a chain of three operands looks at the first two
    only when one of them is a number. *)
Lemma get_dims_scalar_first (s : Z) (A B : matrix) (fuel : nat) :
  get_dims (2 + fuel) (Mul [Num s; Mat A; Mat B])
  = Ret (DPair (nrows A) (ncols A)).
Proof. reflexivity. Qed.

Lemma get_dims_scalar_second (s : Z) (A B : matrix) (fuel : nat) :
  get_dims (2 + fuel) (Mul [Mat A; Num s; Mat B])
  = Ret (DPair (nrows A) (ncols A)).
Proof. reflexivity. Qed.

(** C1 (the code departs from it).  For the chain [s * A * B] with a
    number [s] and matrices of compatible shapes, [collapse] returns a
    matrix with the rows of [A] and the columns of [B], whereas
    [get_dims] of the chain returns the shape of [A]: the two shapes
    differ as soon as [A] and [B] have different numbers of columns. *)
Theorem get_dims_collapse_scalar_chain (s : Z) (A B : matrix) (fuel : nat) :
  ncols A = nrows B ->
  ncols A <> ncols B ->
  exists m d d',
    collapse (4 + fuel) (Mul [Num s; Mat A; Mat B]) = Ret (Mat m) /\
    get_dims (4 + fuel) (Mat m) = Ret d /\
    get_dims (4 + fuel) (Mul [Num s; Mat A; Mat B]) = Ret d' /\
    d = DPair (nrows A) (ncols B) /\
    d' = DPair (nrows A) (ncols A) /\
    d <> d'.
Proof.
  intros H Hne.
  exists (mat_scale s (mat_mult A B)), (DPair (nrows A) (ncols B)),
         (DPair (nrows A) (ncols A)).
  split; [apply collapse_scalar_chain; exact H|].
  split; [reflexivity|].
  split; [reflexivity|].
  split; [reflexivity|].
  split; [reflexivity|].
  intros E. injection E as E. apply Hne. symmetry. exact E.
Qed.

Lemma get_dims_collapse_scalar_chain_witness :
  exists m d d',
    collapse 4 (Mul [Num 2; Mat (ones 3 4); Mat (ones 4 5)]) = Ret (Mat m) /\
    get_dims 4 (Mat m) = Ret d /\
    get_dims 4 (Mul [Num 2; Mat (ones 3 4); Mat (ones 4 5)]) = Ret d' /\
    d = DPair 3 5 /\ d' = DPair 3 4 /\ d <> d'.
Proof.
  apply (get_dims_collapse_scalar_chain 2 (ones 3 4) (ones 4 5) 0).
  - reflexivity.
  - simpl. lia.
Defined.

(** C5 (the code departs from it).  In a chain of three operands with
    a number in the first or in the second place, [get_dims] returns
    the shape of the first matrix: the third operand is neither checked
    against it nor used for the number of columns. *)
Theorem get_dims_scalar_chain_ignores_tail (s : Z) (A B : matrix) (fuel : nat) :
  get_dims (2 + fuel) (Mul [Num s; Mat A; Mat B]) = Ret (DPair (nrows A) (ncols A)) /\
  get_dims (2 + fuel) (Mul [Mat A; Num s; Mat B]) = Ret (DPair (nrows A) (ncols A)).
Proof. split; reflexivity. Qed.

(** Chains of two operands, and chains without numbers in the first two
    places, are handled as the rule says. *)
Lemma get_dims_pair (A B : matrix) (fuel : nat) :
  get_dims (2 + fuel) (Mul [Mat A; Mat B])
  = if ncols A =? nrows B then Ret (DPair (nrows A) (ncols B)) else Raise ShapeError.
Proof. reflexivity. Qed.

Lemma get_dims_scalar_pair (s : Z) (A : matrix) (fuel : nat) :
  get_dims (2 + fuel) (Mul [Num s; Mat A]) = Ret (DPair (nrows A) (ncols A)) /\
  get_dims (2 + fuel) (Mul [Mat A; Num s]) = Ret (DPair (nrows A) (ncols A)).
Proof. split; reflexivity. Qed.

(** ** Claims on the reducers *)

(** C2 (the code departs from it).  A transpose node whose operand is
    not a matrix handle is never collapsed: [collapse] returns at no
    call depth. *)
Theorem collapse_transpose_never_returns (A : thing) :
  is_petsc_mat A = false ->
  forall fuel, collapse fuel (Tr A) = OutOfFuel.
Proof.
  intros HA fuel. apply (collapse_tr_stuck A HA).
Qed.

Lemma collapse_transpose_never_returns_witness :
  collapse 1000 (Tr (Add (Mat (ones 2 2)) (Mat (ones 2 2)))) = OutOfFuel.
Proof.
  apply (@collapse_transpose_never_returns
           (Add (Mat (ones 2 2)) (Mat (ones 2 2))) eq_refl 1000).
Defined.

(** C3 (the code departs from it).  The sum of a matrix handle and the
    number 0 is never collapsed, while the matrix handle alone is
    returned as it is. *)
Theorem collapse_add_zero_never_returns (m : matrix) (fuel : nat) :
  collapse fuel (Add (Mat m) (Num 0)) = OutOfFuel /\
  collapse (S fuel) (Mat m) = Ret (Mat m).
Proof.
  split; [|reflexivity].
  destruct fuel as [|fuel]; [reflexivity|].
  rewrite collapse_S. apply collapse_add_number_stuck.
Qed.

(** C4 (the code departs from it).  The transpose of a transpose is
    never collapsed, while its operand is. *)
Theorem collapse_double_transpose_never_returns (m : matrix) (fuel : nat) :
  collapse fuel (Tr (Tr (Mat m))) = OutOfFuel /\
  collapse (S fuel) (Mat m) = Ret (Mat m).
Proof.
  split; [|reflexivity].
  apply (collapse_tr_stuck (Tr (Mat m))). reflexivity.
Qed.

(** ** Sizes of a block vector *)

(** What the lengths would be, had the components been read. *)
Lemma get_dims_components (fuel : nat) (vs : list (list Z)) :
  mapM (get_dims (S fuel)) (map Vec vs)
  = Ret (map (fun v => DInt (List.length v)) vs).
Proof.
  induction vs as [|v vs IH].
  - reflexivity.
  - cbn [map mapM]. rewrite IH. reflexivity.
Qed.

(** C8 (the code departs from it).  For a block vector [bmat_sizes]
    reads [blocks] from the class [block_vec] and not from its
    argument, and fails with an AttributeError whatever the
    components are, although [get_dims] gives the length of each
    component. *)
Theorem bmat_sizes_block_vec_fails (fuel : nat) (vs : list (list Z)) :
  bmat_sizes (S fuel) (BlockVec (map Vec vs)) = Raise AttributeError /\
  mapM (get_dims (S fuel)) (map Vec vs)
  = Ret (map (fun v => DInt (List.length v)) vs).
Proof.
  split.
  - reflexivity.
  - apply get_dims_components.
Qed.

(** ** The row-streamed assembly *)

(** [block_mat_to_petsc] calls [get_sizes], a name bound nowhere in
    the module. *)
Lemma block_mat_to_petsc_name_error (fuel : nat) (bmat : block_mat) :
  block_mat_to_petsc fuel bmat = Raise NameError.
Proof. reflexivity. Qed.

(** C9 (the code departs from it).  The row-streamed assembly fails
    with a NameError on every block matrix, before any row is read.
    On the scenario the blocks collapse to a grid of four matrices,
    the intermediate-format path assembles them into a 5-by-5 matrix,
    and the row-streamed path fails on that grid. *)
Theorem block_mat_to_petsc_fails :
  (forall fuel bmat, block_mat_to_petsc fuel bmat = Raise NameError) /\
  exists g m,
    convert 4 (BlockMat grid_scenario) false = Ret (BlockMat g) /\
    convert 4 (BlockMat grid_scenario) true = Ret (Plain (Mat m)) /\
    nrows m = 5 /\ ncols m = 5 /\
    block_mat_to_petsc 4 g = Raise NameError.
Proof.
  split.
  - exact block_mat_to_petsc_name_error.
  - eexists. eexists.
    split; [reflexivity|]. split; [reflexivity|].
    split; [reflexivity|]. split; [reflexivity|].
    apply block_mat_to_petsc_name_error.
Qed.

(** ** Indexing and iterating an [ii_Function] *)

Lemma mapM_seq_nth {A : Type} (d : A) (f : nat -> outcome A) (l : list A) :
  forall a,
    (forall k, k < List.length l -> f (a + k) = Ret (nth k l d)) ->
    mapM f (seq a (List.length l)) = Ret l.
Proof.
  induction l as [|x l IH]; intros a H.
  - reflexivity.
  - cbn [List.length seq mapM].
    assert (Hx : f a = Ret x).
    { rewrite <- (Nat.add_0_r a) at 1. apply (H 0). simpl. lia. }
    rewrite Hx. cbn [bind].
    rewrite (IH (S a)).
    + reflexivity.
    + intros k Hk. replace (S a + k) with (a + S k) by lia.
      apply (H (S k)). simpl. lia.
Qed.

Section II_FUNCTION_FACTS.

Variable Function : Type.
Variable self : ii_Function Function.

Lemma ii_getitem_in_range (k : nat) (f : Function) :
  nth_error (functions self) k = Some f ->
  ii_getitem self (Z.of_nat k) = Ret f.
Proof.
  intros H. unfold ii_getitem, ii_len, list_item.
  assert (Hk : k < List.length (functions self)).
  { apply nth_error_Some. rewrite H. discriminate. }
  replace ((0 <=? Z.of_nat k) && (Z.of_nat k <? Z.of_nat (List.length (functions self))))%Z
    with true.
  - rewrite Nat2Z.id, H. reflexivity.
  - symmetry. apply andb_true_intro. split.
    + apply Z.leb_le. lia.
    + apply Z.ltb_lt. lia.
Qed.

Lemma ii_getitem_out_of_range (i : Z) :
  ~ (0 <= i < ii_len self)%Z -> ii_getitem self i = Raise IndexError.
Proof.
  intros H. unfold ii_getitem.
  destruct (0 <=? i)%Z eqn:E1; [|reflexivity].
  destruct (i <? ii_len self)%Z eqn:E2; [|reflexivity].
  exfalso. apply H. split.
  - apply Z.leb_le. exact E1.
  - apply Z.ltb_lt. exact E2.
Qed.

Lemma ii_iter_all (d : Function) : ii_iter self = Ret (functions self).
Proof.
  unfold ii_iter, ii_len. rewrite Nat2Z.id.
  apply (mapM_seq_nth d). intros k Hk. simpl.
  apply ii_getitem_in_range.
  apply nth_error_nth'. exact Hk.
Qed.

End II_FUNCTION_FACTS.

(** C10.  Indexing an [ii_Function] of N components with [i] returns
    the i-th component when [0 <= i < N] and fails on the bounds
    assertion, the IndexError of the design, for every other [i],
    negative ones included; iteration yields the N components in
    order. *)
Theorem ii_getitem_bounds (Function : Type) (self : ii_Function Function) :
  (forall i : Z,
      (0 <= i < Z.of_nat (List.length (functions self)))%Z ->
      exists f, nth_error (functions self) (Z.to_nat i) = Some f /\
                ii_getitem self i = Ret f) /\
  (forall i : Z,
      ~ (0 <= i < Z.of_nat (List.length (functions self)))%Z ->
      ii_getitem self i = Raise IndexError) /\
  ii_iter self = Ret (functions self).
Proof.
  split; [|split].
  - intros i Hi.
    destruct (nth_error (functions self) (Z.to_nat i)) as [f|] eqn:E.
    + exists f. split; [reflexivity|].
      rewrite <- (Z2Nat.id i) by lia.
      apply ii_getitem_in_range. exact E.
    + exfalso. apply nth_error_None in E. lia.
  - intros i Hi. apply ii_getitem_out_of_range. exact Hi.
  - destruct (functions self) as [|d l] eqn:E.
    + unfold ii_iter, ii_len. rewrite E. reflexivity.
    + rewrite <- E. apply (ii_iter_all self d).
Qed.

Lemma ii_getitem_bounds_witness :
  ii_getitem (mk_ii_Function [10; 20; 30]) 1 = Ret 20 /\
  ii_getitem (mk_ii_Function [10; 20; 30]) (-1) = Raise IndexError /\
  ii_getitem (mk_ii_Function [10; 20; 30]) 3 = Raise IndexError /\
  ii_iter (mk_ii_Function [10; 20; 30]) = Ret [10; 20; 30].
Proof.
  pose proof (ii_getitem_bounds (mk_ii_Function [10; 20; 30])) as [Hin [Hout Hit]].
  split; [|split; [|split]].
  - destruct (Hin 1%Z) as [f [Hf Hg]]; [simpl; lia|].
    simpl in Hf. injection Hf as <-. exact Hg.
  - apply Hout. simpl. lia.
  - apply Hout. simpl. lia.
  - exact Hit.
Defined.

(** ** Sequencing over lists *)

Lemma mapM_ret {A B : Type} (f : A -> outcome B) (g : A -> B) (l : list A) :
  (forall x, In x l -> f x = Ret (g x)) -> mapM f l = Ret (map g l).
Proof.
  induction l as [|a l IH]; intros H.
  - reflexivity.
  - cbn [mapM map]. rewrite (H a) by (left; reflexivity). cbn [bind].
    rewrite IH by (intros x Hx; apply H; right; exact Hx). reflexivity.
Qed.

Lemma mapM_map {A B C : Type} (f : B -> outcome C) (g : A -> B) (l : list A) :
  mapM f (map g l) = mapM (fun x => f (g x)) l.
Proof.
  induction l as [|a l IH].
  - reflexivity.
  - cbn [map mapM]. rewrite IH. reflexivity.
Qed.

Lemma mapM_ret_or_raise {A B : Type} (f : A -> outcome B) (e : exn) (l : list A) :
  (forall x, In x l -> returns (f x) \/ f x = Raise e) ->
  returns (mapM f l) \/ mapM f l = Raise e.
Proof.
  induction l as [|a l IH]; intros H.
  - left. exists []. reflexivity.
  - cbn [mapM].
    destruct (H a (or_introl eq_refl)) as [[y Hy]|Hy]; rewrite Hy; cbn [bind].
    + destruct IH as [[ys Hys]|Hys].
      * intros x Hx. apply H. right. exact Hx.
      * left. rewrite Hys. exists (y :: ys). reflexivity.
      * right. rewrite Hys. reflexivity.
    + right. reflexivity.
Qed.

Lemma mapM_raise {A B : Type} (f : A -> outcome B) (e : exn) (l : list A) :
  (forall x, In x l -> returns (f x) \/ f x = Raise e) ->
  (exists x, In x l /\ f x = Raise e) ->
  mapM f l = Raise e.
Proof.
  induction l as [|a l IH]; intros H [x [Hx Hfx]].
  - destruct Hx.
  - cbn [mapM].
    destruct (H a (or_introl eq_refl)) as [[y Hy]|Hy]; rewrite Hy; cbn [bind].
    + destruct Hx as [Hx|Hx].
      * subst x. rewrite Hy in Hfx. discriminate.
      * rewrite IH; [reflexivity| |exists x; split; assumption].
        intros z Hz. apply H. right. exact Hz.
    + reflexivity.
Qed.

Lemma mapM_length {A B : Type} (f : A -> outcome B) (l : list A) (ys : list B) :
  mapM f l = Ret ys -> List.length ys = List.length l.
Proof.
  revert ys. induction l as [|a l IH]; intros ys H.
  - cbn in H. injection H as <-. reflexivity.
  - cbn [mapM] in H. destruct (f a) as [y| |]; cbn [bind] in H; try discriminate.
    destruct (mapM f l) as [ys'| |]; cbn [bind] in H; try discriminate.
    injection H as <-. cbn. rewrite (IH ys' eq_refl). reflexivity.
Qed.

Lemma mapM_nth {A B : Type} (f : A -> outcome B) (l : list A) (ys : list B)
      (d : A) (d' : B) :
  mapM f l = Ret ys ->
  forall k, k < List.length l -> f (nth k l d) = Ret (nth k ys d').
Proof.
  revert ys. induction l as [|a l IH]; intros ys H k Hk.
  - cbn in Hk. lia.
  - cbn [mapM] in H. destruct (f a) as [y| |] eqn:Ea; cbn [bind] in H; try discriminate.
    destruct (mapM f l) as [ys'| |]; cbn [bind] in H; try discriminate.
    injection H as <-. destruct k as [|k].
    + exact Ea.
    + cbn [nth]. apply IH; [reflexivity|]. cbn in Hk. lia.
Qed.

Lemma map_nth_seq {A : Type} (d : A) (l : list A) :
  map (fun i => nth i l d) (seq 0 (List.length l)) = l.
Proof.
  induction l as [|a l IH].
  - reflexivity.
  - cbn [List.length seq map nth]. f_equal.
    rewrite <- seq_shift, map_map. exact IH.
Qed.

(** ** Sets of sizes *)

Lemma nodup_singleton_all (l : list nat) (s : nat) :
  nodup Nat.eq_dec l = [s] -> forall x, In x l -> x = s.
Proof.
  intros H x Hx. apply (nodup_In Nat.eq_dec) in Hx. rewrite H in Hx.
  destruct Hx as [Hx|[]]. symmetry. exact Hx.
Qed.

Lemma nodup_all_equal (l : list nat) (s : nat) :
  l <> [] -> (forall x, In x l -> x = s) -> nodup Nat.eq_dec l = [s].
Proof.
  induction l as [|a l IH]; intros Hne H.
  - contradiction.
  - cbn [nodup]. assert (Ha : a = s) by (apply H; left; reflexivity). subst a.
    destruct l as [|b l].
    + destruct (in_dec Nat.eq_dec s []) as [[]|_]. reflexivity.
    + destruct (in_dec Nat.eq_dec s (b :: l)) as [_|Hn].
      * apply IH; [discriminate|]. intros x Hx. apply H. right. exact Hx.
      * exfalso. apply Hn. left. apply H. right. left. reflexivity.
Qed.

(** ** Block sizes of a block matrix *)


Lemma inferable_dims_of (fuel : nat) (x : thing) :
  inferable fuel x ->
  get_dims fuel x = Ret (dims_of fuel x) /\
  (dims_of fuel x = DNone \/ exists r c, dims_of fuel x = DPair r c).
Proof.
  unfold dims_of. intros [H|[r [c H]]]; rewrite H.
  - split; [reflexivity|left; reflexivity].
  - split; [reflexivity|right; exists r, c; reflexivity].
Qed.

Lemma dims_of_pair (fuel : nat) (x : thing) (r c : nat) :
  dims_of fuel x = DPair r c <-> get_dims fuel x = Ret (DPair r c).
Proof.
  unfold dims_of. split; intros H.
  - destruct (get_dims fuel x) as [d| |]; try discriminate. subst d. reflexivity.
  - rewrite H. reflexivity.
Qed.

Lemma dim_items (k : nat) (ds : list dims) :
  (forall d, In d ds -> d = DNone \/ exists r c, d = DPair r c) ->
  mapM (dim_item k) (filter (fun d => negb (is_none d)) ds) = Ret (pair_sizes k ds).
Proof.
  induction ds as [|d ds IH]; intros H.
  - reflexivity.
  - assert (IH' := IH (fun d' Hd' => H d' (or_intror Hd'))).
    destruct (H d (or_introl eq_refl)) as [Hd|[r [c Hd]]]; subst d.
    + cbn [filter is_none negb pair_sizes flat_map app]. exact IH'.
    + cbn [filter is_none negb mapM dim_item bind]. rewrite IH'. reflexivity.
Qed.

Lemma axis_size_inferable (fuel k : nat) (cells : list thing) :
  (forall x, In x cells -> inferable fuel x) ->
  axis_size fuel k cells =
  match nodup Nat.eq_dec (pair_sizes k (map (dims_of fuel) cells)) with
  | [s] => Ret s
  | _ => Raise InconsistentBlockSizes
  end.
Proof.
  intros H. unfold axis_size.
  rewrite (mapM_ret (get_dims fuel) (dims_of fuel)).
  - cbn [bind]. rewrite dim_items.
    + reflexivity.
    + intros d Hd. apply in_map_iff in Hd. destruct Hd as [x [<- Hx]].
      apply (inferable_dims_of (H x Hx)).
  - intros x Hx. apply (inferable_dims_of (H x Hx)).
Qed.

Lemma in_pair_sizes (k : nat) (ds : list dims) (s : nat) :
  In s (pair_sizes k ds) <-> exists r c, In (DPair r c) ds /\ s = pick k r c.
Proof.
  unfold pair_sizes. rewrite in_flat_map. split.
  - intros [d [Hd Hs]]. destruct d as [|n|r c]; cbn in Hs; try contradiction.
    destruct Hs as [Hs|[]]. exists r, c. split; [exact Hd|symmetry; exact Hs].
  - intros [r [c [Hd Hs]]]. exists (DPair r c). split; [exact Hd|].
    left. symmetry. exact Hs.
Qed.

Lemma axis_size_cases (fuel k : nat) (cells : list thing) :
  (forall x, In x cells -> inferable fuel x) ->
  returns (axis_size fuel k cells) \/
  axis_size fuel k cells = Raise InconsistentBlockSizes.
Proof.
  intros H. rewrite (@axis_size_inferable fuel k cells H).
  destruct (nodup Nat.eq_dec _) as [|s [|s' l]].
  - right. reflexivity.
  - left. exists s. reflexivity.
  - right. reflexivity.
Qed.

(** Two cells with different sizes along the axis. *)
Lemma axis_size_mismatch (fuel k : nat) (cells : list thing)
      (x1 x2 : thing) (r1 c1 r2 c2 : nat) :
  (forall x, In x cells -> inferable fuel x) ->
  In x1 cells -> In x2 cells ->
  get_dims fuel x1 = Ret (DPair r1 c1) ->
  get_dims fuel x2 = Ret (DPair r2 c2) ->
  pick k r1 c1 <> pick k r2 c2 ->
  axis_size fuel k cells = Raise InconsistentBlockSizes.
Proof.
  intros H H1 H2 E1 E2 Hne. rewrite (@axis_size_inferable fuel k cells H).
  destruct (nodup Nat.eq_dec _) as [|s [|s' l]] eqn:E; try reflexivity.
  exfalso. apply Hne.
  rewrite (nodup_singleton_all _ E (pick k r1 c1)).
  - rewrite (nodup_singleton_all _ E (pick k r2 c2)); [reflexivity|].
    apply in_pair_sizes. exists r2, c2. split; [|reflexivity].
    apply in_map_iff. exists x2. split; [|exact H2]. apply dims_of_pair. exact E2.
  - apply in_pair_sizes. exists r1, c1. split; [|reflexivity].
    apply in_map_iff. exists x1. split; [|exact H1]. apply dims_of_pair. exact E1.
Qed.

(** All sized cells agree on [s], and there is one. *)
Lemma axis_size_agree (fuel k : nat) (cells : list thing) (s : nat) :
  (forall x, In x cells -> inferable fuel x) ->
  (exists x r c, In x cells /\ get_dims fuel x = Ret (DPair r c)) ->
  (forall x r c, In x cells -> get_dims fuel x = Ret (DPair r c) -> pick k r c = s) ->
  axis_size fuel k cells = Ret s.
Proof.
  intros H [x0 [r0 [c0 [H0 E0]]]] Hall. rewrite (@axis_size_inferable fuel k cells H).
  rewrite (nodup_all_equal (s := s)); [reflexivity| |].
  - intros Hnil.
    assert (Hin : In (pick k r0 c0) (pair_sizes k (map (dims_of fuel) cells))).
    { apply in_pair_sizes. exists r0, c0. split; [|reflexivity].
      apply in_map_iff. exists x0. split; [|exact H0]. apply dims_of_pair. exact E0. }
    rewrite Hnil in Hin. destruct Hin.
  - intros y Hy. apply in_pair_sizes in Hy. destruct Hy as [r [c [Hd ->]]].
    apply in_map_iff in Hd. destruct Hd as [x [Hx Hin]].
    apply (Hall x r c Hin). apply dims_of_pair. exact Hx.
Qed.

Section BMAT_SIZES.

Variable fuel : nat.
Variable b : block_mat.

Hypothesis cells_inferable :
  forall i j, i < n_brows b -> j < n_bcols b -> inferable fuel (blocks b i j).


Lemma in_row_cells (i : nat) (x : thing) :
  In x (row_cells b i) <-> exists j, j < n_bcols b /\ x = blocks b i j.
Proof.
  unfold row_cells. rewrite in_map_iff. split.
  - intros [j [<- Hj]]. apply in_seq in Hj. exists j. split; [lia|reflexivity].
  - intros [j [Hj ->]]. exists j. split; [reflexivity|]. apply in_seq. lia.
Qed.

Lemma in_col_cells (j : nat) (x : thing) :
  In x (col_cells b j) <-> exists i, i < n_brows b /\ x = blocks b i j.
Proof.
  unfold col_cells. rewrite in_map_iff. split.
  - intros [i [<- Hi]]. apply in_seq in Hi. exists i. split; [lia|reflexivity].
  - intros [i [Hi ->]]. exists i. split; [reflexivity|]. apply in_seq. lia.
Qed.

Lemma row_cells_inferable (i : nat) :
  i < n_brows b -> forall x, In x (row_cells b i) -> inferable fuel x.
Proof.
  intros Hi x Hx. apply in_row_cells in Hx. destruct Hx as [j [Hj ->]].
  apply cells_inferable; assumption.
Qed.

Lemma col_cells_inferable (j : nat) :
  j < n_bcols b -> forall x, In x (col_cells b j) -> inferable fuel x.
Proof.
  intros Hj x Hx. apply in_col_cells in Hx. destruct Hx as [i [Hi ->]].
  apply cells_inferable; assumption.
Qed.

Lemma bmat_sizes_phases :
  bmat_sizes fuel (BlockMat b) =
  (row_sizes <- mapM (fun i => axis_size fuel 0 (row_cells b i)) (seq 0 (n_brows b)) ;;
   col_sizes <- mapM (fun j => axis_size fuel 1 (col_cells b j)) (seq 0 (n_bcols b)) ;;
   Ret (MatSizes row_sizes col_sizes)).
Proof.
  unfold bmat_sizes, grid_rows, grid_cols. rewrite !mapM_map. reflexivity.
Qed.

Lemma rows_phase_cases :
  returns (mapM (fun i => axis_size fuel 0 (row_cells b i)) (seq 0 (n_brows b))) \/
  mapM (fun i => axis_size fuel 0 (row_cells b i)) (seq 0 (n_brows b))
  = Raise InconsistentBlockSizes.
Proof.
  apply mapM_ret_or_raise. intros i Hi. apply in_seq in Hi.
  apply axis_size_cases. apply row_cells_inferable. lia.
Qed.

Lemma row_mismatch_fails (i j1 j2 r1 c1 r2 c2 : nat) :
  i < n_brows b -> j1 < n_bcols b -> j2 < n_bcols b ->
  get_dims fuel (blocks b i j1) = Ret (DPair r1 c1) ->
  get_dims fuel (blocks b i j2) = Ret (DPair r2 c2) ->
  r1 <> r2 ->
  bmat_sizes fuel (BlockMat b) = Raise InconsistentBlockSizes.
Proof.
  intros Hi Hj1 Hj2 E1 E2 Hne. rewrite bmat_sizes_phases.
  rewrite (@mapM_raise _ _ _ InconsistentBlockSizes); [reflexivity| |].
  - intros k Hk. apply in_seq in Hk.
    apply axis_size_cases. apply row_cells_inferable. lia.
  - exists i. split; [apply in_seq; lia|].
    apply (@axis_size_mismatch fuel 0 (row_cells b i) (blocks b i j1) (blocks b i j2)
                               r1 c1 r2 c2);
      try assumption.
    + apply row_cells_inferable. exact Hi.
    + apply in_row_cells. exists j1. split; [exact Hj1|reflexivity].
    + apply in_row_cells. exists j2. split; [exact Hj2|reflexivity].
Qed.

Lemma col_mismatch_fails (i1 i2 j r1 c1 r2 c2 : nat) :
  i1 < n_brows b -> i2 < n_brows b -> j < n_bcols b ->
  get_dims fuel (blocks b i1 j) = Ret (DPair r1 c1) ->
  get_dims fuel (blocks b i2 j) = Ret (DPair r2 c2) ->
  c1 <> c2 ->
  bmat_sizes fuel (BlockMat b) = Raise InconsistentBlockSizes.
Proof.
  intros Hi1 Hi2 Hj E1 E2 Hne. rewrite bmat_sizes_phases.
  destruct rows_phase_cases as [[rs Hrs]|Hrs]; rewrite Hrs; cbn [bind];
    [|reflexivity].
  rewrite (@mapM_raise _ _ _ InconsistentBlockSizes); [reflexivity| |].
  - intros k Hk. apply in_seq in Hk.
    apply axis_size_cases. apply col_cells_inferable. lia.
  - exists j. split; [apply in_seq; lia|].
    apply (@axis_size_mismatch fuel 1 (col_cells b j) (blocks b i1 j) (blocks b i2 j)
                               r1 c1 r2 c2);
      try assumption.
    + apply col_cells_inferable. exact Hj.
    + apply in_col_cells. exists i1. split; [exact Hi1|reflexivity].
    + apply in_col_cells. exists i2. split; [exact Hi2|reflexivity].
Qed.

Lemma sizes_agree_returns (rs cs : list nat) :
  List.length rs = n_brows b ->
  List.length cs = n_bcols b ->
  (forall i, i < n_brows b ->
     exists j r c, j < n_bcols b /\ get_dims fuel (blocks b i j) = Ret (DPair r c)) ->
  (forall j, j < n_bcols b ->
     exists i r c, i < n_brows b /\ get_dims fuel (blocks b i j) = Ret (DPair r c)) ->
  (forall i j r c, i < n_brows b -> j < n_bcols b ->
     get_dims fuel (blocks b i j) = Ret (DPair r c) ->
     r = nth i rs 0 /\ c = nth j cs 0) ->
  bmat_sizes fuel (BlockMat b) = Ret (MatSizes rs cs).
Proof.
  intros Hlr Hlc Hrow Hcol Hagree. rewrite bmat_sizes_phases.
  rewrite <- Hlr, <- Hlc.
  rewrite (@mapM_seq_nth _ 0 _ rs 0).
  - cbn [bind]. rewrite (@mapM_seq_nth _ 0 _ cs 0); [reflexivity|].
    intros j Hj. cbn [Nat.add]. rewrite Hlc in Hj.
    apply axis_size_agree.
    + apply col_cells_inferable. exact Hj.
    + destruct (Hcol j Hj) as [i [r [c [Hi E]]]].
      exists (blocks b i j), r, c. split; [|exact E].
      apply in_col_cells. exists i. split; [exact Hi|reflexivity].
    + intros x r c Hx E. apply in_col_cells in Hx. destruct Hx as [i [Hi ->]].
      cbn [pick]. apply (proj2 (Hagree i j r c Hi Hj E)).
  - intros i Hi. cbn [Nat.add]. rewrite Hlr in Hi.
    apply axis_size_agree.
    + apply row_cells_inferable. exact Hi.
    + destruct (Hrow i Hi) as [j [r [c [Hj E]]]].
      exists (blocks b i j), r, c. split; [|exact E].
      apply in_row_cells. exists j. split; [exact Hj|reflexivity].
    + intros x r c Hx E. apply in_row_cells in Hx. destruct Hx as [j [Hj ->]].
      cbn [pick]. apply (proj1 (Hagree i j r c Hi Hj E)).
Qed.

End BMAT_SIZES.

(** C7.  On a block matrix whose cells all have inferable dimensions
    (a pair, or none for a number): two sized cells of one block row
    with different row sizes, or of one block column with different
    column sizes, make [bmat_sizes] fail with InconsistentBlockSizes;
    and when every row and every column has a sized cell and all sized
    cells agree with [rs] and [cs], [bmat_sizes] returns [(rs, cs)],
    whatever numbers the other cells hold. *)
Theorem bmat_sizes_consistency (fuel : nat) (b : block_mat) :
  (forall i j, i < n_brows b -> j < n_bcols b -> inferable fuel (blocks b i j)) ->
  (forall i j1 j2 r1 c1 r2 c2,
      i < n_brows b -> j1 < n_bcols b -> j2 < n_bcols b ->
      get_dims fuel (blocks b i j1) = Ret (DPair r1 c1) ->
      get_dims fuel (blocks b i j2) = Ret (DPair r2 c2) ->
      r1 <> r2 ->
      bmat_sizes fuel (BlockMat b) = Raise InconsistentBlockSizes) /\
  (forall i1 i2 j r1 c1 r2 c2,
      i1 < n_brows b -> i2 < n_brows b -> j < n_bcols b ->
      get_dims fuel (blocks b i1 j) = Ret (DPair r1 c1) ->
      get_dims fuel (blocks b i2 j) = Ret (DPair r2 c2) ->
      c1 <> c2 ->
      bmat_sizes fuel (BlockMat b) = Raise InconsistentBlockSizes) /\
  (forall rs cs,
      List.length rs = n_brows b ->
      List.length cs = n_bcols b ->
      (forall i, i < n_brows b ->
         exists j r c, j < n_bcols b /\ get_dims fuel (blocks b i j) = Ret (DPair r c)) ->
      (forall j, j < n_bcols b ->
         exists i r c, i < n_brows b /\ get_dims fuel (blocks b i j) = Ret (DPair r c)) ->
      (forall i j r c, i < n_brows b -> j < n_bcols b ->
         get_dims fuel (blocks b i j) = Ret (DPair r c) ->
         r = nth i rs 0 /\ c = nth j cs 0) ->
      bmat_sizes fuel (BlockMat b) = Ret (MatSizes rs cs)).
Proof.
  intros Hinf. split; [|split].
  - intros i j1 j2 r1 c1 r2 c2 Hi Hj1 Hj2 E1 E2 Hne.
    exact (@row_mismatch_fails fuel b Hinf i j1 j2 r1 c1 r2 c2 Hi Hj1 Hj2 E1 E2 Hne).
  - intros i1 i2 j r1 c1 r2 c2 Hi1 Hi2 Hj E1 E2 Hne.
    exact (@col_mismatch_fails fuel b Hinf i1 i2 j r1 c1 r2 c2 Hi1 Hi2 Hj E1 E2 Hne).
  - intros rs cs Hlr Hlc Hrow Hcol Hagree.
    exact (@sizes_agree_returns fuel b Hinf rs cs Hlr Hlc Hrow Hcol Hagree).
Qed.

Lemma bmat_sizes_consistency_witness :
  bmat_sizes 1 (BlockMat grid_with_number) = Ret (MatSizes [3; 2] [3; 2]) /\
  bmat_sizes 1 (BlockMat grid_uneven) = Raise InconsistentBlockSizes.
Proof.
  split.
  - assert (Hinf : forall i j, i < 2 -> j < 2 ->
                     inferable 1 (blocks grid_with_number i j)).
    { intros i j Hi Hj.
      destruct i as [|[|i]]; destruct j as [|[|j]]; try lia;
        try (right; eexists; eexists; reflexivity).
      left. reflexivity. }
    apply (proj2 (proj2 (@bmat_sizes_consistency 1 grid_with_number Hinf))).
    + reflexivity.
    + reflexivity.
    + intros i Hi. exists 0.
      destruct i as [|[|i]]; try (simpl in Hi; lia);
        eexists; eexists; (split; [simpl; lia|reflexivity]).
    + intros j Hj. exists 0.
      destruct j as [|[|j]]; try (simpl in Hj; lia);
        eexists; eexists; (split; [simpl; lia|reflexivity]).
    + intros i j r c Hi Hj.
      destruct i as [|[|i]]; destruct j as [|[|j]];
        try (simpl in Hi; lia); try (simpl in Hj; lia);
        cbn; intros E; inversion E; split; reflexivity.
  - assert (Hinf : forall i j, i < 1 -> j < 2 ->
                     inferable 1 (blocks grid_uneven i j)).
    { intros i j Hi Hj.
      destruct i as [|i]; destruct j as [|[|j]]; try lia;
        right; eexists; eexists; reflexivity. }
    apply (proj1 (@bmat_sizes_consistency 1 grid_uneven Hinf) 0 0 1 3 3 2 2);
      try reflexivity; simpl; lia.
Defined.

(** ** Monolithic assembly *)

Lemma axis_size_ret_inv (fuel k : nat) (cells : list thing) (s : nat) :
  (forall x, In x cells -> inferable fuel x) ->
  axis_size fuel k cells = Ret s ->
  (forall x r c, In x cells -> get_dims fuel x = Ret (DPair r c) -> pick k r c = s) /\
  (exists x r c, In x cells /\ get_dims fuel x = Ret (DPair r c)).
Proof.
  intros H E. rewrite (@axis_size_inferable fuel k cells H) in E.
  destruct (nodup Nat.eq_dec (pair_sizes k (map (dims_of fuel) cells)))
    as [|s0 [|s1 l]] eqn:En; try discriminate.
  injection E as ->. split.
  - intros x r c Hx Ex. apply (nodup_singleton_all _ En).
    apply in_pair_sizes. exists r, c. split; [|reflexivity].
    apply in_map_iff. exists x. split; [|exact Hx]. apply dims_of_pair. exact Ex.
  - assert (Hs : In s (pair_sizes k (map (dims_of fuel) cells))).
    { apply (nodup_In Nat.eq_dec). rewrite En. left. reflexivity. }
    apply in_pair_sizes in Hs. destruct Hs as [r [c [Hd _]]].
    apply in_map_iff in Hd. destruct Hd as [x [Hx Hin]].
    exists x, r, c. split; [exact Hin|]. apply dims_of_pair. exact Hx.
Qed.

Lemma mapM_seq2 {B : Type} (F : nat -> nat -> outcome B) (h : nat -> nat -> B)
      (nr nc : nat) :
  (forall i j, i < nr -> j < nc -> F i j = Ret (h i j)) ->
  mapM (fun i => mapM (F i) (seq 0 nc)) (seq 0 nr) = Ret (grid_rows nr nc h).
Proof.
  intros H. unfold grid_rows. apply mapM_ret. intros i Hi. apply in_seq in Hi.
  apply mapM_ret. intros j Hj. apply in_seq in Hj. apply H; lia.
Qed.

Lemma mapM_grid {A B : Type} (f : A -> outcome B) (g : nat -> nat -> A)
      (h : nat -> nat -> B) (nr nc : nat) :
  (forall i j, i < nr -> j < nc -> f (g i j) = Ret (h i j)) ->
  mapM (mapM f) (grid_rows nr nc g) = Ret (grid_rows nr nc h).
Proof.
  intros H. unfold grid_rows. rewrite mapM_map.
  apply mapM_ret. intros i Hi. apply in_seq in Hi.
  rewrite mapM_map. apply mapM_ret. intros j Hj. apply in_seq in Hj.
  apply H; lia.
Qed.

Lemma grid_get_rows {X : Type} (d : X) (f : nat -> nat -> X) (nr nc i j : nat) :
  i < nr -> j < nc -> grid_get d (grid_rows nr nc f) i j = f i j.
Proof.
  intros Hi Hj. unfold grid_get, grid_rows.
  rewrite (nth_indep _ [] (map (f 0) (seq 0 nc))) by (rewrite length_map, length_seq; exact Hi).
  rewrite (map_nth (fun i => map (f i) (seq 0 nc)) (seq 0 nr) 0 i).
  rewrite seq_nth by exact Hi. cbn [Nat.add].
  rewrite (nth_indep _ d (f i 0)) by (rewrite length_map, length_seq; exact Hj).
  rewrite (map_nth (f i) (seq 0 nc) 0 j).
  rewrite seq_nth by exact Hj. reflexivity.
Qed.

Lemma extent_agree (dim : matrix -> nat) (s : nat) (cells : list (option matrix)) :
  0 < s ->
  (forall A, In (Some A) cells -> dim A = s) ->
  forall cur,
    (cur = s \/ (cur = 0 /\ exists A, In (Some A) cells)) ->
    extent dim cells cur = Ret s.
Proof.
  intros Hs. induction cells as [|x cells IH]; intros Hall cur Hcur.
  - cbn. destruct Hcur as [->|[_ [A []]]]. reflexivity.
  - assert (Hall' : forall A, In (Some A) cells -> dim A = s).
    { intros A HA. apply Hall. right. exact HA. }
    destruct x as [A|]; cbn [extent].
    + assert (HA : dim A = s) by (apply Hall; left; reflexivity).
      destruct Hcur as [->|[-> _]].
      * replace (s =? 0) with false by (symmetry; apply Nat.eqb_neq; lia).
        rewrite HA, Nat.eqb_refl. apply IH; [exact Hall'|left; reflexivity].
      * cbn [Nat.eqb]. rewrite HA. apply IH; [exact Hall'|left; reflexivity].
    + apply IH; [exact Hall'|].
      destruct Hcur as [->|[-> [A [HA|HA]]]].
      * left. reflexivity.
      * discriminate.
      * right. split; [reflexivity|exists A; exact HA].
Qed.

Lemma locate_offset (lengths : list nat) :
  forall b l, b < List.length lengths -> l < nth b lengths 0 ->
              locate lengths (offset lengths b + l) = Some (b, l).
Proof.
  induction lengths as [|s rest IH]; intros b l Hb Hl.
  - cbn in Hb. lia.
  - destruct b as [|b].
    + cbn [nth] in Hl. unfold offset. cbn [firstn total fold_right Nat.add locate].
      replace (l <? s) with true by (symmetry; apply Nat.ltb_lt; exact Hl).
      reflexivity.
    + cbn [nth] in Hl. cbn in Hb.
      unfold offset. cbn [firstn total fold_right locate].
      fold (total (firstn b rest)). fold (offset rest b).
      replace (s + offset rest b + l <? s) with false
        by (symmetry; apply Nat.ltb_ge; lia).
      replace (s + offset rest b + l - s) with (offset rest b + l) by lia.
      rewrite IH by lia. reflexivity.
Qed.

Lemma existsb_zero_false (l : list nat) :
  (forall s, In s l -> 0 < s) -> existsb (Nat.eqb 0) l = false.
Proof.
  induction l as [|s l IH]; intros H.
  - reflexivity.
  - cbn [existsb]. rewrite IH by (intros x Hx; apply H; right; exact Hx).
    assert (0 < s) by (apply H; left; reflexivity).
    destruct s; [lia|reflexivity].
Qed.


Section CONVERT_GRID.

Variable fuel : nat.
Variable b : block_mat.
Variables rs cs : list nat.

Hypothesis some_rows : 0 < n_brows b.

Hypothesis collapsed :
  forall i j, i < n_brows b -> j < n_bcols b ->
              is_number (blocks b i j) || is_petsc_mat (blocks b i j) = true.

Hypothesis sizes_found : bmat_sizes (S fuel) (BlockMat b) = Ret (MatSizes rs cs).

Hypothesis rows_positive : forall s, In s rs -> 0 < s.
Hypothesis cols_positive : forall s, In s cs -> 0 < s.

Hypothesis numbers_square :
  forall i j z, i < n_brows b -> j < n_bcols b ->
                blocks b i j = Num z -> z <> 0%Z -> nth i rs 0 = nth j cs 0.

Lemma collapsed_inferable (i j : nat) :
  i < n_brows b -> j < n_bcols b -> inferable (S fuel) (blocks b i j).
Proof.
  intros Hi Hj. pose proof (collapsed Hi Hj) as Hc.
  destruct (blocks b i j); try discriminate.
  - left. reflexivity.
  - right. eexists. eexists. reflexivity.
Qed.

Lemma sizes_phases :
  mapM (fun i => axis_size (S fuel) 0 (row_cells b i)) (seq 0 (n_brows b)) = Ret rs /\
  mapM (fun j => axis_size (S fuel) 1 (col_cells b j)) (seq 0 (n_bcols b)) = Ret cs.
Proof.
  pose proof sizes_found as H. rewrite bmat_sizes_phases in H.
  destruct (mapM (fun i => axis_size (S fuel) 0 (row_cells b i)) (seq 0 (n_brows b)))
    as [rs'| |]; cbn [bind] in H; try discriminate.
  destruct (mapM (fun j => axis_size (S fuel) 1 (col_cells b j)) (seq 0 (n_bcols b)))
    as [cs'| |]; cbn [bind] in H; try discriminate.
  injection H as -> ->. split; reflexivity.
Qed.

Lemma rs_length : List.length rs = n_brows b.
Proof.
  rewrite (mapM_length _ _ (proj1 sizes_phases)). apply length_seq.
Qed.

Lemma cs_length : List.length cs = n_bcols b.
Proof.
  rewrite (mapM_length _ _ (proj2 sizes_phases)). apply length_seq.
Qed.

Lemma row_size (i : nat) :
  i < n_brows b -> axis_size (S fuel) 0 (row_cells b i) = Ret (nth i rs 0).
Proof.
  intros Hi.
  pose proof (@mapM_nth _ _ _ _ _ 0 0 (proj1 sizes_phases) i) as H.
  rewrite length_seq, seq_nth in H by exact Hi. apply H. exact Hi.
Qed.

Lemma col_size (j : nat) :
  j < n_bcols b -> axis_size (S fuel) 1 (col_cells b j) = Ret (nth j cs 0).
Proof.
  intros Hj.
  pose proof (@mapM_nth _ _ _ _ _ 0 0 (proj2 sizes_phases) j) as H.
  rewrite length_seq, seq_nth in H by exact Hj. apply H. exact Hj.
Qed.

(** Every matrix cell has the sizes of its block row and column. *)
Lemma matrix_cell_sizes (i j : nat) (a : matrix) :
  i < n_brows b -> j < n_bcols b -> blocks b i j = Mat a ->
  nrows a = nth i rs 0 /\ ncols a = nth j cs 0.
Proof.
  intros Hi Hj E. split.
  - apply (proj1 (@axis_size_ret_inv (S fuel) 0 (row_cells b i) (nth i rs 0)
                    (fun x Hx => @row_cells_inferable (S fuel) b collapsed_inferable i Hi x Hx)
                    (row_size Hi))
                 (blocks b i j) (nrows a) (ncols a)).
    + apply in_row_cells. exists j. split; [exact Hj|reflexivity].
    + rewrite E. reflexivity.
  - apply (proj1 (@axis_size_ret_inv (S fuel) 1 (col_cells b j) (nth j cs 0)
                    (fun x Hx => @col_cells_inferable (S fuel) b collapsed_inferable j Hj x Hx)
                    (col_size Hj))
                 (blocks b i j) (nrows a) (ncols a)).
    + apply in_col_cells. exists i. split; [exact Hi|reflexivity].
    + rewrite E. reflexivity.
Qed.

(** Every block row and every block column holds a matrix. *)
Lemma row_has_matrix (i : nat) :
  i < n_brows b -> exists j a, j < n_bcols b /\ blocks b i j = Mat a.
Proof.
  intros Hi.
  destruct (proj2 (@axis_size_ret_inv (S fuel) 0 (row_cells b i) (nth i rs 0)
                     (fun x Hx => @row_cells_inferable (S fuel) b collapsed_inferable i Hi x Hx)
                     (row_size Hi)))
    as [x [r [c [Hx E]]]].
  apply in_row_cells in Hx. destruct Hx as [j [Hj ->]].
  pose proof (collapsed Hi Hj) as Hc.
  destruct (blocks b i j) as [z|a| | | | | | |] eqn:Eb; try discriminate.
  exists j, a. split; [exact Hj|exact Eb].
Qed.

Lemma col_has_matrix (j : nat) :
  j < n_bcols b -> exists i a, i < n_brows b /\ blocks b i j = Mat a.
Proof.
  intros Hj.
  destruct (proj2 (@axis_size_ret_inv (S fuel) 1 (col_cells b j) (nth j cs 0)
                     (fun x Hx => @col_cells_inferable (S fuel) b collapsed_inferable j Hj x Hx)
                     (col_size Hj)))
    as [x [r [c [Hx E]]]].
  apply in_col_cells in Hx. destruct Hx as [i [Hi ->]].
  pose proof (collapsed Hi Hj) as Hc.
  destruct (blocks b i j) as [z|a| | | | | | |] eqn:Eb; try discriminate.
  exists i, a. split; [exact Hi|exact Eb].
Qed.

Lemma some_cols : 0 < n_bcols b.
Proof.
  destruct (row_has_matrix some_rows) as [j [a [Hj _]]]. lia.
Qed.

Lemma convert_block_promoted (i j : nat) :
  i < n_brows b -> j < n_bcols b ->
  convert_block (S fuel) rs cs i j (blocks b i j)
  = Ret (promoted rs cs i j (blocks b i j)).
Proof.
  intros Hi Hj. unfold convert_block.
  pose proof (collapsed Hi Hj) as Hc.
  destruct (blocks b i j) as [z|a| | | | | | |] eqn:Eb; try discriminate.
  - cbn [collapse bind promoted].
    destruct (z =? 0)%Z eqn:Ez; [reflexivity|].
    rewrite (numbers_square Hi Hj Eb) by (apply Z.eqb_neq; exact Ez).
    rewrite Nat.eqb_refl. reflexivity.
  - reflexivity.
Qed.

Lemma promoted_shape (i j : nat) (a : matrix) :
  i < n_brows b -> j < n_bcols b ->
  csr_of (promoted rs cs i j (blocks b i j)) = Some a ->
  nrows a = nth i rs 0 /\ ncols a = nth j cs 0.
Proof.
  intros Hi Hj E.
  pose proof (collapsed Hi Hj) as Hc.
  destruct (blocks b i j) as [z|a'| | | | | | |] eqn:Eb; try discriminate.
  - cbn [promoted] in E. destruct (z =? 0)%Z eqn:Ez; [discriminate|].
    cbn [csr_of] in E. injection E as <-. cbn [diagonal_matrix nrows ncols].
    split; [reflexivity|].
    apply (numbers_square Hi Hj Eb). apply Z.eqb_neq. exact Ez.
  - cbn [promoted csr_of] in E. injection E as <-.
    rewrite <- Eb in *. apply matrix_cell_sizes; try assumption.
Qed.


Lemma csr_cell_in_range (i j : nat) :
  i < n_brows b -> j < n_bcols b -> csr_cell rs cs b i j = csr_of (promoted_cell rs cs b i j).
Proof.
  intros Hi Hj. unfold csr_cell. rewrite grid_get_rows by assumption. reflexivity.
Qed.

Lemma promoted_cell_kind (i j : nat) :
  i < n_brows b -> j < n_bcols b ->
  is_petsc_mat (promoted_cell rs cs b i j) || is_number (promoted_cell rs cs b i j) = true /\
  cell_to_numpy (promoted_cell rs cs b i j) = Ret (csr_of (promoted_cell rs cs b i j)).
Proof.
  intros Hi Hj. unfold promoted_cell.
  pose proof (collapsed Hi Hj) as Hc.
  destruct (blocks b i j) as [z|a| | | | | | |]; try discriminate.
  - cbn [promoted]. destruct (z =? 0)%Z; split; reflexivity.
  - split; reflexivity.
Qed.

Lemma loop_result :
  mapM (fun i =>
          mapM (fun j => convert_block (S fuel) rs cs i j (blocks b i j))
               (seq 0 (List.length cs)))
       (seq 0 (List.length rs))
  = Ret (grid_rows (n_brows b) (n_bcols b) (promoted_cell rs cs b)).
Proof.
  rewrite rs_length, cs_length.
  apply (mapM_seq2 (fun i j => convert_block (S fuel) rs cs i j (blocks b i j))).
  intros i j Hi Hj. apply convert_block_promoted; assumption.
Qed.

Lemma loop_result_collapsed :
  forallb (forallb (fun x => is_petsc_mat x || is_number x))
          (grid_rows (n_brows b) (n_bcols b) (promoted_cell rs cs b)) = true.
Proof.
  apply forallb_forall. intros row Hrow.
  unfold grid_rows in Hrow. apply in_map_iff in Hrow.
  destruct Hrow as [i [<- Hi]]. apply in_seq in Hi.
  apply forallb_forall. intros x Hx. apply in_map_iff in Hx.
  destruct Hx as [j [<- Hj]]. apply in_seq in Hj.
  apply promoted_cell_kind; lia.
Qed.

Lemma cells_to_numpy :
  mapM (mapM cell_to_numpy)
       (grid_rows (n_brows b) (n_bcols b)
                  (grid_get (Num 0) (grid_rows (n_brows b) (n_bcols b) (promoted_cell rs cs b))))
  = Ret (grid_rows (n_brows b) (n_bcols b) (fun i j => csr_of (promoted_cell rs cs b i j))).
Proof.
  apply mapM_grid. intros i j Hi Hj.
  rewrite grid_get_rows by assumption.
  apply promoted_cell_kind; assumption.
Qed.

Lemma brow_lengths_found :
  mapM (fun row => extent nrows row 0)
       (grid_rows (n_brows b) (n_bcols b) (csr_cell rs cs b)) = Ret rs.
Proof.
  unfold grid_rows. rewrite mapM_map. rewrite <- rs_length.
  apply (@mapM_seq_nth _ 0). intros i Hi. cbn [Nat.add].
  rewrite rs_length in Hi.
  apply extent_agree.
  - apply rows_positive. apply nth_In. rewrite rs_length. exact Hi.
  - intros A HA. apply in_map_iff in HA. destruct HA as [j [E Hj]].
    apply in_seq in Hj. rewrite csr_cell_in_range in E by lia.
    apply (@promoted_shape i j A); [exact Hi|lia|exact E].
  - right. split; [reflexivity|].
    destruct (row_has_matrix Hi) as [j [a [Hj E]]].
    exists a. apply in_map_iff. exists j. split; [|apply in_seq; lia].
    rewrite csr_cell_in_range by assumption.
    unfold promoted_cell. rewrite E. reflexivity.
Qed.

Lemma bcol_lengths_found :
  mapM (fun col => extent ncols col 0)
       (grid_cols (n_brows b) (n_bcols b) (csr_cell rs cs b)) = Ret cs.
Proof.
  unfold grid_cols. rewrite mapM_map. rewrite <- cs_length.
  apply (@mapM_seq_nth _ 0). intros j Hj. cbn [Nat.add].
  rewrite cs_length in Hj.
  apply extent_agree.
  - apply cols_positive. apply nth_In. rewrite cs_length. exact Hj.
  - intros A HA. apply in_map_iff in HA. destruct HA as [i [E Hi]].
    apply in_seq in Hi. rewrite csr_cell_in_range in E by lia.
    apply (@promoted_shape i j A); [lia|exact Hj|exact E].
  - right. split; [reflexivity|].
    destruct (col_has_matrix Hj) as [i [a [Hi E]]].
    exists a. apply in_map_iff. exists i. split; [|apply in_seq; lia].
    rewrite csr_cell_in_range by assumption.
    unfold promoted_cell. rewrite E. reflexivity.
Qed.

Lemma cell_entry_promoted (i j r c : nat) :
  i < n_brows b -> j < n_bcols b ->
  match csr_cell rs cs b i j with
  | Some A => coeff A r c
  | None => 0%Z
  end = cell_entry (blocks b i j) r c.
Proof.
  intros Hi Hj. rewrite csr_cell_in_range by assumption.
  unfold promoted_cell.
  pose proof (collapsed Hi Hj) as Hc.
  destruct (blocks b i j) as [z|a| | | | | | |]; try discriminate.
  - cbn [promoted cell_entry]. destruct (z =? 0)%Z; reflexivity.
  - reflexivity.
Qed.

Lemma convert_assembles :
  exists m,
    convert (S fuel) (BlockMat b) true = Ret (Plain (Mat m)) /\
    nrows m = total rs /\
    ncols m = total cs /\
    forall i j r c,
      i < n_brows b -> j < n_bcols b ->
      r < nth i rs 0 -> c < nth j cs 0 ->
      coeff m (offset rs i + r) (offset cs j + c) = cell_entry (blocks b i j) r c.
Proof.
  eexists. split; [|split; [|split]].
  - unfold convert. rewrite sizes_found. cbn [bind].
    rewrite loop_result. cbn [bind].
    rewrite loop_result_collapsed.
    unfold block_mat_to_numpy. cbn [n_brows n_bcols blocks].
    rewrite rs_length, cs_length.
    rewrite cells_to_numpy. cbn [bind].
    unfold numpy_block_mat.
    replace ((n_brows b =? 0) || (n_bcols b =? 0)) with false.
    + change (grid_get None
                (grid_rows (n_brows b) (n_bcols b)
                           (fun i j => csr_of (promoted_cell rs cs b i j))))
        with (csr_cell rs cs b).
      rewrite brow_lengths_found. cbn [bind].
      rewrite bcol_lengths_found. cbn [bind].
      rewrite (existsb_zero_false _ rows_positive), (existsb_zero_false _ cols_positive).
      cbn [orb bind numpy_to_petsc]. reflexivity.
    + symmetry. apply orb_false_intro; apply Nat.eqb_neq.
      * pose proof some_rows. lia.
      * pose proof some_cols. lia.
  - reflexivity.
  - reflexivity.
  - intros i j r c Hi Hj Hr Hc. cbn [coeff].
    rewrite locate_offset by (try rewrite rs_length; assumption).
    rewrite locate_offset by (try rewrite cs_length; assumption).
    apply cell_entry_promoted; assumption.
Qed.

End CONVERT_GRID.

(** A block matrix made of numbers only has no sizes. *)
Lemma axis_size_numbers (fuel k : nat) (cells : list thing) :
  (forall x, In x cells -> is_number x = true) ->
  axis_size (S fuel) k cells = Raise InconsistentBlockSizes.
Proof.
  intros H. unfold axis_size.
  rewrite (mapM_ret (get_dims (S fuel)) (fun _ => DNone)).
  - cbn [bind].
    assert (E : filter (fun d => negb (is_none d)) (map (fun _ : thing => DNone) cells) = []).
    { clear H. induction cells as [|x cells IH]; [reflexivity|exact IH]. }
    rewrite E. reflexivity.
  - intros x Hx. specialize (H x Hx). destruct x; try discriminate. reflexivity.
Qed.

Lemma convert_numbers_only (fuel : nat) (b : block_mat) (algorithm : bool) :
  0 < n_brows b ->
  (forall i j, i < n_brows b -> j < n_bcols b -> is_number (blocks b i j) = true) ->
  convert (S fuel) (BlockMat b) algorithm = Raise InconsistentBlockSizes.
Proof.
  intros Hnr Hnum. unfold convert. rewrite bmat_sizes_phases.
  destruct (n_brows b) as [|n] eqn:En; [lia|].
  cbn [seq mapM]. rewrite axis_size_numbers; [reflexivity|].
  intros x Hx. apply in_row_cells in Hx. destruct Hx as [j [Hj ->]].
  apply Hnum; [lia|exact Hj].
Qed.

(** A block matrix of numbers only is assembled at no call depth: its
    sizes are read from matrix cells, and it has none.  So the block
    matrix with 5 on the diagonal and zeros elsewhere is not assembled
    to 5 times the identity; it is rejected with
    InconsistentBlockSizes. *)
Lemma diagonal_promotion_as_stated_fails :
  ~ diagonal_promotion_as_stated grid_numbers 5.
Proof.
  intros H.
  assert (Hd : scalar_diagonal grid_numbers 5).
  { split; [reflexivity|]. intros i j Hi Hj.
    destruct i as [|[|i]]; destruct j as [|[|j]];
      try (simpl in Hi; lia); try (simpl in Hj; lia); reflexivity. }
  destruct (H Hd) as [fuel [m [E _]]]; [discriminate|].
  destruct fuel as [|fuel]; [discriminate E|].
  rewrite (@convert_numbers_only fuel grid_numbers true) in E.
  - discriminate E.
  - simpl. lia.
  - intros i j Hi Hj.
    destruct i as [|[|i]]; destruct j as [|[|j]];
      try (simpl in Hi; lia); try (simpl in Hj; lia); reflexivity.
Qed.

(** Beside the rule: the comment in [convert] says that only numbers on
    the diagonal become scaled identities, while the code tests the
    value and the sizes of a cell and not its position.  On
    [grid_offdiag] the number 5 above the diagonal is assembled as 5
    times the 1-by-1 identity, not as a zero block. *)
Lemma scalars_as_stated_fails : ~ scalars_as_stated 1 grid_offdiag.
Proof.
  intros H.
  assert (E : exists m,
             convert 1 (BlockMat grid_offdiag) true = Ret (Plain (Mat m)) /\
             coeff m 0 1 = 5%Z).
  { eexists. split; reflexivity. }
  destruct E as [m [E1 E2]].
  assert (Hs : bmat_sizes 1 (BlockMat grid_offdiag) = Ret (MatSizes [1; 1] [1; 1]))
    by reflexivity.
  destruct (H [1; 1] [1; 1] m Hs E1 0 1 5%Z) as [H0 _].
  - simpl. lia.
  - simpl. lia.
  - reflexivity.
  - assert (Hz : coeff m (offset [1; 1] 0 + 0) (offset [1; 1] 1 + 0) = 0%Z).
    { apply H0; simpl; lia. }
    cbn in Hz. rewrite E2 in Hz. discriminate.
Qed.

(** Zero cells, non-zero numbers on the diagonal and matrix cells in
    the assembled matrix. *)
Lemma convert_zero_and_diagonal_cells (fuel : nat) (b : block_mat) (rs cs : list nat) :
  0 < n_brows b ->
  (forall i j, i < n_brows b -> j < n_bcols b ->
               is_number (blocks b i j) || is_petsc_mat (blocks b i j) = true) ->
  bmat_sizes (S fuel) (BlockMat b) = Ret (MatSizes rs cs) ->
  (forall s, In s rs -> 0 < s) ->
  (forall s, In s cs -> 0 < s) ->
  (forall i j z, i < n_brows b -> j < n_bcols b -> i <> j ->
                 blocks b i j = Num z -> z = 0%Z) ->
  (forall i z, i < n_brows b -> i < n_bcols b ->
               blocks b i i = Num z -> z <> 0%Z -> nth i rs 0 = nth i cs 0) ->
  exists m,
    convert (S fuel) (BlockMat b) true = Ret (Plain (Mat m)) /\
    nrows m = total rs /\
    ncols m = total cs /\
    (forall i j r c,
        i < n_brows b -> j < n_bcols b -> r < nth i rs 0 -> c < nth j cs 0 ->
        blocks b i j = Num 0 ->
        coeff m (offset rs i + r) (offset cs j + c) = 0%Z) /\
    (forall i z r c,
        i < n_brows b -> i < n_bcols b -> r < nth i rs 0 -> c < nth i cs 0 ->
        blocks b i i = Num z -> z <> 0%Z ->
        coeff m (offset rs i + r) (offset cs i + c) = if r =? c then z else 0%Z) /\
    (forall i j a r c,
        i < n_brows b -> j < n_bcols b -> r < nth i rs 0 -> c < nth j cs 0 ->
        blocks b i j = Mat a ->
        coeff m (offset rs i + r) (offset cs j + c) = coeff a r c).
Proof.
  intros Hnr Hcol Hsz Hrp Hcp Hoff Hdiag.
  assert (Hsq : forall i j z, i < n_brows b -> j < n_bcols b ->
                  blocks b i j = Num z -> z <> 0%Z -> nth i rs 0 = nth j cs 0).
  { intros i j z Hi Hj E Hz. destruct (Nat.eq_dec i j) as [<-|Hne].
    - apply (Hdiag i z); assumption.
    - exfalso. apply Hz. apply (Hoff i j z); assumption. }
  destruct (@convert_assembles fuel b rs cs Hnr Hcol Hsz Hrp Hcp Hsq)
    as [m [Hm [Hr [Hc Hentry]]]].
  exists m. split; [exact Hm|]. split; [exact Hr|]. split; [exact Hc|].
  split; [|split].
  - intros i j r c Hi Hj Hr' Hc' E. rewrite Hentry by assumption.
    rewrite E. reflexivity.
  - intros i z r c Hi Hj Hr' Hc' E Hz. rewrite Hentry by assumption.
    rewrite E. cbn [cell_entry].
    replace (z =? 0)%Z with false by (symmetry; apply Z.eqb_neq; exact Hz).
    reflexivity.
  - intros i j a r c Hi Hj Hr' Hc' E. rewrite Hentry by assumption.
    rewrite E. reflexivity.
Qed.

(** C6, amended.  In the monolithic assembly of a block matrix of
    numbers and matrices that has a block row, whose sizes are inferred
    and positive, and where zero is the only number off the diagonal:
    every zero cell, on or off the diagonal, gives an all-zero block of
    the inferred size; a non-zero number on the diagonal whose row size
    equals its column size gives that number times the identity; every
    matrix cell gives its own entries.  A block matrix of numbers only,
    as one with [s] on the diagonal and zeros elsewhere, has no
    inferred size and is rejected with InconsistentBlockSizes. *)
Theorem convert_scalar_cells :
  (forall (fuel : nat) (b : block_mat) (rs cs : list nat),
      0 < n_brows b ->
      (forall i j, i < n_brows b -> j < n_bcols b ->
                   is_number (blocks b i j) || is_petsc_mat (blocks b i j) = true) ->
      bmat_sizes (S fuel) (BlockMat b) = Ret (MatSizes rs cs) ->
      (forall s, In s rs -> 0 < s) ->
      (forall s, In s cs -> 0 < s) ->
      (forall i j z, i < n_brows b -> j < n_bcols b -> i <> j ->
                     blocks b i j = Num z -> z = 0%Z) ->
      (forall i z, i < n_brows b -> i < n_bcols b ->
                   blocks b i i = Num z -> z <> 0%Z -> nth i rs 0 = nth i cs 0) ->
      exists m,
        convert (S fuel) (BlockMat b) true = Ret (Plain (Mat m)) /\
        nrows m = total rs /\
        ncols m = total cs /\
        (forall i j r c,
            i < n_brows b -> j < n_bcols b -> r < nth i rs 0 -> c < nth j cs 0 ->
            blocks b i j = Num 0 ->
            coeff m (offset rs i + r) (offset cs j + c) = 0%Z) /\
        (forall i z r c,
            i < n_brows b -> i < n_bcols b -> r < nth i rs 0 -> c < nth i cs 0 ->
            blocks b i i = Num z -> z <> 0%Z ->
            coeff m (offset rs i + r) (offset cs i + c) = if r =? c then z else 0%Z) /\
        (forall i j a r c,
            i < n_brows b -> j < n_bcols b -> r < nth i rs 0 -> c < nth j cs 0 ->
            blocks b i j = Mat a ->
            coeff m (offset rs i + r) (offset cs j + c) = coeff a r c)) /\
  (forall (fuel : nat) (b : block_mat) (algorithm : bool),
      0 < n_brows b ->
      (forall i j, i < n_brows b -> j < n_bcols b -> is_number (blocks b i j) = true) ->
      convert (S fuel) (BlockMat b) algorithm = Raise InconsistentBlockSizes).
Proof.
  split.
  - intros fuel b rs cs. apply convert_zero_and_diagonal_cells.
  - intros fuel b algorithm. apply convert_numbers_only.
Qed.

Lemma convert_scalar_cells_witness :
  exists m,
    convert 1 (BlockMat grid_diag) true = Ret (Plain (Mat m)) /\
    nrows m = 4 /\ ncols m = 4 /\
    coeff m 0 0 = 2%Z /\ coeff m 1 0 = 0%Z /\
    coeff m 3 3 = 0%Z /\ coeff m 0 2 = 1%Z.
Proof.
  destruct (proj1 convert_scalar_cells 0 grid_diag [2; 2] [2; 2])
    as [m (Hm & Hr & Hc & Hzero & Hdiag & Hmat)].
  - simpl. lia.
  - intros i j Hi Hj.
    destruct i as [|[|i]]; destruct j as [|[|j]];
      try (simpl in Hi; lia); try (simpl in Hj; lia); reflexivity.
  - reflexivity.
  - intros s [<-|[<-|[]]]; lia.
  - intros s [<-|[<-|[]]]; lia.
  - intros i j z Hi Hj Hne.
    destruct i as [|[|i]]; destruct j as [|[|j]];
      try (simpl in Hi; lia); try (simpl in Hj; lia); try lia;
      cbn; intros E; discriminate.
  - intros i z Hi Hj.
    destruct i as [|[|i]]; try (simpl in Hi; lia); reflexivity.
  - exists m. split; [exact Hm|]. split; [exact Hr|]. split; [exact Hc|].
    split; [|split; [|split]].
    + apply (Hdiag 0 2%Z 0 0); simpl; try lia; reflexivity.
    + apply (Hdiag 0 2%Z 1 0); simpl; try lia; reflexivity.
    + apply (Hzero 1 1 1 1); simpl; try lia; reflexivity.
    + apply (Hmat 0 1 (ones 2 2) 0 0); simpl; try lia; reflexivity.
Defined.

(** The scenario of the design document, on the path through the
    intermediate sparse format: the four blocks are collapsed and
    assembled into a 5-by-5 matrix. *)
Lemma convert_scenario :
  bmat_sizes 4 (BlockMat grid_scenario) = Ret (MatSizes [3; 2] [3; 2]) /\
  exists m,
    convert 4 (BlockMat grid_scenario) true = Ret (Plain (Mat m)) /\
    nrows m = 5 /\ ncols m = 5 /\
    coeff m 0 0 = 3%Z /\ coeff m 0 3 = 2%Z /\
    coeff m 3 0 = 1%Z /\ coeff m 4 4 = 4%Z.
Proof.
  split; [reflexivity|].
  eexists. repeat split; reflexivity.
Qed.

(** The body of the row-streamed assembly is sound once the sizes are
    taken from [bmat_sizes]: on the collapsed grid of the scenario it
    builds the matrix of the intermediate-format path. *)
Lemma row_streamed_scenario :
  exists g m m',
    convert 4 (BlockMat grid_scenario) false = Ret (BlockMat g) /\
    convert 4 (BlockMat grid_scenario) true = Ret (Plain (Mat m)) /\
    block_mat_to_petsc_with (module_sizes_function 1 "bmat_sizes") g
    = Ret (Plain (Mat m')) /\
    mat_eqb m m' = true.
Proof.
  eexists. eexists. eexists.
  split; [reflexivity|]. split; [reflexivity|]. split; [reflexivity|].
  vm_compute. reflexivity.
Qed.

(** ** Where the hypothesis on the cells comes from *)

Lemma mapM_in {A B : Type} (f : A -> outcome B) (l : list A) (ys : list B) :
  mapM f l = Ret ys -> forall x, In x l -> exists y, f x = Ret y /\ In y ys.
Proof.
  revert ys. induction l as [|a l IH]; intros ys H x Hx.
  - destruct Hx.
  - cbn [mapM] in H. destruct (f a) as [y| |] eqn:Ea; cbn [bind] in H; try discriminate.
    destruct (mapM f l) as [ys'| |]; cbn [bind] in H; try discriminate.
    injection H as <-. destruct Hx as [<-|Hx].
    + exists y. split; [exact Ea|left; reflexivity].
    + destruct (IH ys' eq_refl x Hx) as [y' [Hy' Hin]].
      exists y'. split; [exact Hy'|right; exact Hin].
Qed.

Lemma axis_size_returns_inferable (fuel k : nat) (cells : list thing) (s : nat) :
  axis_size fuel k cells = Ret s -> forall x, In x cells -> inferable fuel x.
Proof.
  unfold axis_size. intros H x Hx.
  destruct (mapM (get_dims fuel) cells) as [ds| |] eqn:Eds; cbn [bind] in H;
    try discriminate.
  destruct (mapM (dim_item k) (filter (fun d => negb (is_none d)) ds))
    as [sz| |] eqn:Esz; cbn [bind] in H; try discriminate.
  destruct (mapM_in _ _ Eds x Hx) as [d [Hd Hin]].
  destruct d as [|n|r c].
  - left. exact Hd.
  - exfalso.
    destruct (mapM_in _ _ Esz (DInt n)) as [y [Hy _]].
    + apply filter_In. split; [exact Hin|reflexivity].
    + discriminate.
  - right. exists r, c. exact Hd.
Qed.

(** [bmat_sizes] returns sizes only for a block matrix whose cells all
    have inferable dimensions; with any other cell it fails, with the
    error of that cell. *)
Lemma bmat_sizes_returns_inferable (fuel : nat) (b : block_mat) (sz : sizes) :
  bmat_sizes fuel (BlockMat b) = Ret sz ->
  forall i j, i < n_brows b -> j < n_bcols b -> inferable fuel (blocks b i j).
Proof.
  intros H i j Hi Hj. rewrite bmat_sizes_phases in H.
  destruct (mapM (fun i => axis_size fuel 0 (row_cells b i)) (seq 0 (n_brows b)))
    as [rs| |] eqn:Ers; cbn [bind] in H; try discriminate.
  pose proof (@mapM_nth _ _ _ _ _ 0 0 Ers i) as Hrow.
  rewrite length_seq, seq_nth in Hrow by exact Hi. specialize (Hrow Hi).
  apply (@axis_size_returns_inferable fuel 0 (row_cells b i) _ Hrow).
  apply in_row_cells. exists j. split; [exact Hj|reflexivity].
Qed.

(** ** The backend operations the reducers would apply *)

Lemma mat_transpose_involutive (a : matrix) :
  mat_eq (mat_transpose (mat_transpose a)) a.
Proof.
  unfold mat_eq. cbn. repeat split; reflexivity.
Qed.

Lemma mat_axpy_zero (alpha : Z) (a z : matrix) :
  (forall i j, coeff z i j = 0%Z) ->
  mat_eq (mat_axpy alpha a z) a.
Proof.
  intros Hz. unfold mat_eq. cbn. repeat split; try reflexivity.
  intros i j _ _. rewrite Hz. lia.
Qed.

Lemma collapse_add_matrices (fuel : nat) (a a' : matrix) :
  nrows a = nrows a' -> ncols a = ncols a' ->
  collapse (2 + fuel) (Add (Mat a) (Mat a')) = Ret (Mat (mat_axpy 1 a a')).
Proof.
  intros Hr Hc. cbn. unfold size_eqb. rewrite Hr, Hc, !Nat.eqb_refl. reflexivity.
Qed.

(** * Further properties of the code *)

(** ** What [collapse] returns *)

Lemma bind_ret_inv {A B : Type} (c : outcome A) (k : A -> outcome B) (v : B) :
  bind c k = Ret v -> exists a, c = Ret a /\ k a = Ret v.
Proof.
  destruct c as [a|e|]; cbn [bind]; intros H; try discriminate.
  exists a. split; [reflexivity|exact H].
Qed.

Ltac bind_inv H :=
  let a := fresh "a" in
  let E := fresh "E" in
  apply bind_ret_inv in H; destruct H as [a [E H]].

Lemma collapse_kinds (fuel : nat) :
  (forall b v, collapse fuel b = Ret v ->
               is_value v = true /\ (matrix_node b = true -> is_petsc_mat v = true)) /\
  (forall b v, collapse_tr fuel b = Ret v -> is_petsc_mat v = true) /\
  (forall b v, collapse_add fuel b = Ret v -> is_petsc_mat v = true) /\
  (forall b v, collapse_sub fuel b = Ret v -> is_petsc_mat v = true) /\
  (forall b v, collapse_mul fuel b = Ret v -> is_value v = true).
Proof.
  induction fuel as [|fuel (IHc & IHt & IHa & IHs & IHm)].
  - repeat split; intros; discriminate.
  - assert (Hmat : forall v, is_petsc_mat v = true -> is_value v = true).
    { intros v Hv. unfold is_value. rewrite Hv. destruct (is_number v); reflexivity. }
    split; [|split; [|split; [|split]]].
    + intros b v H. rewrite collapse_S in H.
      destruct b as [x|m|w|chain|A B|A B|A|A|name].
      * injection H as <-. split; [reflexivity|discriminate].
      * injection H as <-. split; [reflexivity|discriminate].
      * injection H as <-. split; [reflexivity|discriminate].
      * split; [exact (IHm _ _ H)|discriminate].
      * split; [apply Hmat; exact (IHa _ _ H)|intros _; exact (IHa _ _ H)].
      * split; [apply Hmat; exact (IHs _ _ H)|intros _; exact (IHs _ _ H)].
      * split; [apply Hmat; exact (IHt _ _ H)|intros _; exact (IHt _ _ H)].
      * destruct (is_petsc_mat A) eqn:EA; [|discriminate].
        injection H as <-. split; [apply Hmat; exact EA|intros _; exact EA].
      * discriminate.
    + intros b v H. rewrite collapse_tr_S in H. bind_inv H.
      destruct a; try (bind_inv H; exact (IHt _ _ H)).
      injection H as <-. reflexivity.
    + intros b v H. rewrite collapse_add_S in H. bind_inv H. bind_inv H.
      destruct a, a0;
        try (bind_inv H; bind_inv H; bind_inv H; exact (IHa _ _ H)).
      destruct (size_eqb m m0); [|discriminate]. injection H as <-. reflexivity.
    + intros b v H. rewrite collapse_sub_S in H. bind_inv H. bind_inv H.
      destruct a, a0;
        try (bind_inv H; bind_inv H; bind_inv H; exact (IHs _ _ H)).
      destruct (size_eqb m m0); [|discriminate]. injection H as <-. reflexivity.
    + intros b v H. rewrite collapse_mul_S in H. bind_inv H.
      destruct a as [|A B]; [discriminate|].
      destruct B as [|B0 Bt].
      * bind_inv H. bind_inv H. discriminate.
      * destruct Bt as [|B1 Bt].
        -- destruct A, B0;
             try (bind_inv H; bind_inv H; bind_inv H;
                  exact (proj1 (IHc _ _ H)));
             try (injection H as <-; reflexivity).
           destruct (ncols m =? nrows m0); [|discriminate].
           injection H as <-. reflexivity.
        -- bind_inv H. bind_inv H. bind_inv H. bind_inv H.
           exact (IHm _ _ H).
Qed.

(** X1.  Whenever [collapse] returns, it returns a number, a matrix
    handle or a vector handle; on a sum, a difference, a transpose or
    an operator that carries its matrix it returns a matrix handle. *)
Theorem collapse_returns_value (fuel : nat) (b v : thing) :
  collapse fuel b = Ret v ->
  is_value v = true /\ (matrix_node b = true -> is_petsc_mat v = true).
Proof.
  apply (proj1 (collapse_kinds fuel)).
Qed.

Lemma collapse_returns_value_witness :
  is_value (Mat (mat_axpy 1 (ones 2 2) (ones 2 2))) = true /\
  (matrix_node (Add (Mat (ones 2 2)) (Mat (ones 2 2))) = true ->
   is_petsc_mat (Mat (mat_axpy 1 (ones 2 2) (ones 2 2))) = true).
Proof.
  apply (@collapse_returns_value 2 (Add (Mat (ones 2 2)) (Mat (ones 2 2)))).
  reflexivity.
Defined.

(** ** [get_dims] always terminates *)

Lemma weight_Mul (chain : list thing) : weight (Mul chain) = S (weights chain).
Proof.
  induction chain as [|x rest IH].
  - reflexivity.
  - change (weight (Mul (x :: rest))) with (S (weight x + pred (weight (Mul rest)))).
    rewrite IH. reflexivity.
Qed.

Lemma weight_pos (t : thing) : 1 <= weight t.
Proof. destruct t; cbn [weight]; lia. Qed.

Lemma weights_app (l l' : list thing) : weights (l ++ l') = weights l + weights l'.
Proof.
  induction l as [|x l IH]; cbn [app weights fold_right].
  - reflexivity.
  - fold (weights (l ++ l')). fold (weights l). rewrite IH. lia.
Qed.

Lemma weights_chain_of (x : thing) : weights (chain_of x) <= weight x.
Proof.
  destruct x; try (cbn [chain_of weights fold_right weight]; lia).
  cbn [chain_of]. rewrite weight_Mul. lia.
Qed.

Lemma weight_chain_of (x : thing) : weight x <= S (weights (chain_of x)).
Proof.
  destruct x; try (cbn [chain_of weights fold_right weight]; lia).
  cbn [chain_of]. rewrite weight_Mul. lia.
Qed.

Lemma py_mul_chain (x y p : thing) :
  py_mul x y = Ret p ->
  weights (chain_of p) <= weights (chain_of x) + weight y.
Proof.
  intros H.
  assert (Hb : p = block_mul x y ->
               weights (chain_of p) <= weights (chain_of x) + weight y).
  { intros ->. unfold block_mul. cbn [chain_of]. rewrite weights_app.
    pose proof (weights_chain_of y). lia. }
  pose proof (weight_pos y) as Hy.
  unfold py_mul in H.
  destruct x, y; try discriminate H;
    try (injection H as <-; cbn [chain_of weights fold_right weight]; lia);
    try (cbn [block_operand orb] in H; try discriminate H;
         injection H as <-; apply Hb; reflexivity).
Qed.

Lemma reduce_from_weight (l : list thing) :
  forall acc p,
    reduce_from acc l = Ret p ->
    weight p <= S (weights (chain_of acc) + weights l).
Proof.
  induction l as [|b l IH]; intros acc p H.
  - cbn in H. injection H as <-. pose proof (weight_chain_of acc).
    cbn [weights fold_right]. lia.
  - cbn [reduce_from] in H. bind_inv H.
    pose proof (IH _ _ H) as Hp. pose proof (py_mul_chain _ _ E) as Ha.
    cbn [weights fold_right]. fold (weights l). lia.
Qed.

Lemma reduce_mul_weight (B : list thing) (p : thing) :
  reduce_mul B = Ret p -> weight p <= S (weights B).
Proof.
  destruct B as [|b l]; [discriminate|]. cbn [reduce_mul]. intros H.
  pose proof (reduce_from_weight _ _ H) as Hp.
  pose proof (weights_chain_of b).
  cbn [weights fold_right]. fold (weights l). lia.
Qed.

Lemma answered_bind {A B : Type} (c : outcome A) (k : A -> outcome B) :
  answered c -> (forall a, c = Ret a -> answered (k a)) -> answered (bind c k).
Proof.
  intros Hc Hk. destruct c as [a|e|]; cbn [bind].
  - apply Hk. reflexivity.
  - discriminate.
  - exfalso. apply Hc. reflexivity.
Qed.

Lemma mul_dims_answered (d d' : dims) : answered (mul_dims d d').
Proof.
  unfold mul_dims. destruct d, d'; try discriminate.
  destruct (c =? r0); discriminate.
Qed.

Lemma py_mul_answered (x y : thing) : answered (py_mul x y).
Proof.
  unfold py_mul. destruct x, y; cbn [block_operand orb]; discriminate.
Qed.

Lemma reduce_mul_answered (B : list thing) : answered (reduce_mul B).
Proof.
  destruct B as [|b l]; [discriminate|]. cbn [reduce_mul].
  revert b. induction l as [|c l IH]; intros b.
  - discriminate.
  - cbn [reduce_from]. apply answered_bind; [apply py_mul_answered|].
    intros a _. apply IH.
Qed.

Lemma get_dims_answers (fuel : nat) :
  forall E, weight E <= fuel -> answered (get_dims fuel E).
Proof.
  induction fuel as [|fuel IH]; intros E Hw.
  - pose proof (weight_pos E). lia.
  - rewrite get_dims_unfold.
    destruct E as [x|m|v|chain|A B|A B|A|A|name]; try discriminate.
    + rewrite weight_Mul in Hw.
      destruct chain as [|A B]; [discriminate|].
      cbn [weights fold_right] in Hw. fold (weights B) in Hw.
      pose proof (weight_pos A) as HA.
      apply answered_bind; [apply IH; lia|]. intros dA _.
      destruct B as [|B0 Bt]; [discriminate|].
      assert (HB0 : weight B0 <= fuel).
      { cbn [weights fold_right] in Hw. lia. }
      apply answered_bind; [apply IH; exact HB0|]. intros dB _.
      destruct dA; try discriminate;
        (destruct dB; try discriminate;
         (destruct Bt as [|B1 Bt]; [apply mul_dims_answered|];
          apply answered_bind;
          [ apply reduce_mul_answered
          | intros p Hp; apply answered_bind;
            [ apply IH; pose proof (reduce_mul_weight _ Hp); lia
            | intros; apply mul_dims_answered ] ])).
    + cbn [weight] in Hw.
      destruct (is_number A); [apply IH; lia|].
      destruct (is_number B); [apply IH; lia|].
      apply answered_bind; [apply IH; lia|]. intros d _.
      apply answered_bind; [apply IH; lia|]. intros d' _.
      destruct (dims_eqb d d'); discriminate.
    + cbn [weight] in Hw.
      destruct (is_number A); [apply IH; lia|].
      destruct (is_number B); [apply IH; lia|].
      apply answered_bind; [apply IH; lia|]. intros d _.
      apply answered_bind; [apply IH; lia|]. intros d' _.
      destruct (dims_eqb d d'); discriminate.
    + cbn [weight] in Hw.
      apply answered_bind; [apply IH; lia|]. intros d _.
      destruct d; discriminate.
    + cbn [weight] in Hw.
      destruct (is_petsc_mat A); [apply IH; lia|discriminate].
Qed.

(** X2.  [get_dims] terminates on every expression: within a call
    depth of the number of nodes it returns or raises, and the answer
    is the same at every larger depth. *)
Theorem get_dims_terminates (E : thing) :
  exists r, r <> OutOfFuel /\
            forall fuel, weight E <= fuel -> get_dims fuel E = r.
Proof.
  exists (get_dims (weight E) E). split.
  - apply get_dims_answers. apply le_n.
  - intros fuel Hle.
    apply (@get_dims_mono (weight E) fuel E _ eq_refl); [|exact Hle].
    apply get_dims_answers. apply le_n.
Qed.

Lemma get_dims_terminates_witness :
  exists r, r <> OutOfFuel /\
            get_dims 10 (Mul [Mat (ones 3 4); Num 2; Mat (ones 4 5)]) = r.
Proof.
  destruct (get_dims_terminates (Mul [Mat (ones 3 4); Num 2; Mat (ones 4 5)]))
    as [r [Hr H]].
  exists r. split; [exact Hr|]. apply H. simpl. lia.
Defined.

(** ** Shapes are kept by [collapse] when products are binary *)

Lemma value_dims (v : thing) (fuel : nat) :
  is_value v = true -> get_dims (S fuel) v = Ret (dims_val v).
Proof.
  destruct v; intros H; try discriminate H; reflexivity.
Qed.

Lemma value_binary (v : thing) : is_value v = true -> binary v = true.
Proof.
  destruct v; intros H; try discriminate H; reflexivity.
Qed.

Lemma collapse_number (fuel : nat) (A c : thing) :
  is_number A = true -> collapse fuel A = Ret c -> c = A.
Proof.
  intros HA H. destruct fuel as [|fuel]; [discriminate|].
  destruct A; try discriminate HA. cbn in H. injection H as <-. reflexivity.
Qed.

(** [get_dims] of a sum or difference, and of the same node over the
    collapsed operands. *)
Lemma get_dims_sum_values (A B cA cB : thing) (f : nat) (d : dims) :
  is_value cA = true -> is_value cB = true ->
  (is_number A = true -> cA = A) ->
  (is_number B = true -> cB = B) ->
  (forall dA, get_dims f A = Ret dA -> dims_val cA = dA) ->
  (forall dB, get_dims f B = Ret dB -> dims_val cB = dB) ->
  get_dims (S f) (Add A B) = Ret d ->
  get_dims 2 (Add cA cB) = Ret d.
Proof.
  intros VA VB NA NB HA HB H.
  rewrite get_dims_unfold in H. rewrite get_dims_unfold.
  rewrite !(value_dims _ 0) by assumption.
  destruct (is_number A) eqn:EA.
  - rewrite (NA eq_refl), EA. rewrite (HB _ H). reflexivity.
  - destruct (is_number B) eqn:EB.
    + rewrite (NB eq_refl), EB. rewrite <- (HA _ H).
      destruct (is_number cA) eqn:EcA; [|reflexivity].
      destruct cA; try discriminate EcA. destruct B; try discriminate EB. reflexivity.
    + bind_inv H. bind_inv H.
      destruct (dims_eqb a a0) eqn:Eq; [|discriminate]. injection H as <-.
      rewrite (HA _ E), (HB _ E0).
      assert (Haa : a0 = a).
      { destruct a, a0; try discriminate Eq; try reflexivity.
        - apply Nat.eqb_eq in Eq. subst. reflexivity.
        - apply andb_prop in Eq. destruct Eq as [E1 E2].
          apply Nat.eqb_eq in E1. apply Nat.eqb_eq in E2. subst. reflexivity. }
      subst a0.
      destruct (is_number cA) eqn:EcA.
      * reflexivity.
      * destruct (is_number cB) eqn:EcB.
        -- reflexivity.
        -- cbn [bind]. rewrite Eq. reflexivity.
Qed.

(** The same for a product of two operands. *)
Lemma get_dims_product_values (A B cA cB : thing) (f : nat) (d : dims) :
  is_value cA = true -> is_value cB = true ->
  (forall dA, get_dims f A = Ret dA -> dims_val cA = dA) ->
  (forall dB, get_dims f B = Ret dB -> dims_val cB = dB) ->
  get_dims (S f) (Mul [A; B]) = Ret d ->
  get_dims 2 (Mul [cA; cB]) = Ret d.
Proof.
  intros VA VB HA HB H.
  rewrite get_dims_unfold in H. rewrite get_dims_unfold.
  rewrite !(value_dims _ 0) by assumption.
  bind_inv H. bind_inv H.
  rewrite (HA _ E), (HB _ E0). cbn [bind]. exact H.
Qed.

Definition keeps_shape (b v : thing) : Prop :=
  forall f d, get_dims f b = Ret d -> get_dims 1 v = Ret d.

Lemma value_keeps_shape (v : thing) : is_value v = true -> keeps_shape v v.
Proof.
  intros Hv f d H. destruct f as [|f]; [discriminate|].
  rewrite value_dims in H by exact Hv. rewrite value_dims by exact Hv. exact H.
Qed.

Lemma keeps_shape_dims_val (b v : thing) (f : nat) (d : dims) :
  is_value v = true -> keeps_shape b v -> get_dims f b = Ret d -> dims_val v = d.
Proof.
  intros Hv Hk H. specialize (Hk f d H).
  rewrite value_dims in Hk by exact Hv. injection Hk as Hk. exact Hk.
Qed.

Lemma stuck_on_value (fuel : nat) (r v : thing) :
  is_value r = true ->
  collapse_tr fuel r <> Ret v /\ collapse_add fuel r <> Ret v /\
  collapse_sub fuel r <> Ret v /\ collapse_mul fuel r <> Ret v.
Proof.
  intros Hr. destruct fuel as [|fuel].
  - repeat split; discriminate.
  - destruct r; try discriminate Hr; repeat split; discriminate.
Qed.

Lemma collapse_keeps_shape_all (fuel : nat) :
  (forall b v, binary b = true -> collapse fuel b = Ret v -> keeps_shape b v) /\
  (forall A v, binary A = true -> collapse_tr fuel (Tr A) = Ret v ->
               keeps_shape (Tr A) v) /\
  (forall A B v, binary A = true -> binary B = true ->
                 collapse_add fuel (Add A B) = Ret v -> keeps_shape (Add A B) v) /\
  (forall A B v, binary A = true -> binary B = true ->
                 collapse_sub fuel (Sub A B) = Ret v -> keeps_shape (Sub A B) v) /\
  (forall A B v, binary A = true -> binary B = true ->
                 collapse_mul fuel (Mul [A; B]) = Ret v -> keeps_shape (Mul [A; B]) v).
Proof.
  induction fuel as [|fuel (IHc & IHt & IHa & IHs & IHm)].
  - repeat split; intros; discriminate.
  - split; [|split; [|split; [|split]]].
    + (* collapse *)
      intros b v Hb H. rewrite collapse_S in H.
      destruct b as [x|m|w|chain|A B|A B|A|A|name].
      * injection H as <-. apply value_keeps_shape. reflexivity.
      * injection H as <-. apply value_keeps_shape. reflexivity.
      * injection H as <-. apply value_keeps_shape. reflexivity.
      * cbn [binary] in Hb.
        destruct chain as [|A [|B [|C chain]]]; try discriminate Hb.
        apply andb_prop in Hb. destruct Hb as [HA HB].
        apply IHm; assumption.
      * cbn [binary] in Hb. apply andb_prop in Hb. destruct Hb as [HA HB].
        apply IHa; assumption.
      * cbn [binary] in Hb. apply andb_prop in Hb. destruct Hb as [HA HB].
        apply IHs; assumption.
      * apply IHt; assumption.
      * destruct (is_petsc_mat A) eqn:EA; [|discriminate]. injection H as <-.
        intros f d Hd. destruct f as [|f]; [discriminate|].
        rewrite get_dims_unfold, EA in Hd.
        apply (@value_keeps_shape A) with (f := f); [|exact Hd].
        unfold is_value. rewrite EA. destruct (is_number A); reflexivity.
      * discriminate.
    + (* collapse_tr *)
      intros A v HA H. rewrite collapse_tr_S in H. cbn [getattr_A bind] in H.
      assert (Hrec : (r <- collapse fuel (Tr A) ;; collapse_tr fuel r) = Ret v ->
                     False).
      { intros Hk. bind_inv Hk.
        destruct (proj1 (collapse_kinds fuel) _ _ E) as [Hval _].
        apply (proj1 (@stuck_on_value fuel a v Hval)). exact Hk. }
      destruct A; try (exfalso; apply Hrec; exact H).
      injection H as <-. intros f d Hd.
      destruct f as [|[|f]]; try discriminate Hd.
      cbn in Hd. exact Hd.
    + (* collapse_add *)
      intros A B v HA HB H. rewrite collapse_add_S in H.
      cbn [getattr_A getattr_B bind] in H.
      assert (Hrec : (cA <- collapse fuel A ;;
                      cB <- collapse fuel B ;;
                      s <- py_add cA cB ;; collapse_add fuel s) = Ret v ->
                     keeps_shape (Add A B) v).
      { clear H. intros H. bind_inv H. bind_inv H. bind_inv H.
        destruct (proj1 (collapse_kinds fuel) _ _ E) as [VA _].
        destruct (proj1 (collapse_kinds fuel) _ _ E0) as [VB _].
        pose proof (proj1 (proj2 (proj2 (collapse_kinds fuel))) _ _ H) as Vv.
        assert (Es : a1 = Add a a0).
        { unfold py_add in E1.
          destruct a, a0; try discriminate VA; try discriminate VB;
            try discriminate E1;
            try (cbn [block_operand orb] in E1; injection E1 as <-; reflexivity).
          injection E1 as <-. exfalso.
          apply (proj1 (proj2 (@stuck_on_value fuel (Num (x + x0)) v eq_refl))).
          exact H. }
        subst a1.
        intros f d Hd. destruct f as [|f]; [discriminate|].
        apply (IHa a a0 v (@value_binary a VA) (@value_binary a0 VB) H 2).
        apply (@get_dims_sum_values A B a a0 f d VA VB); try exact Hd.
        - intros HnA. apply (@collapse_number fuel A a HnA E).
        - intros HnB. apply (@collapse_number fuel B a0 HnB E0).
        - intros dA HdA. apply (@keeps_shape_dims_val A a f dA VA (IHc _ _ HA E) HdA).
        - intros dB HdB. apply (@keeps_shape_dims_val B a0 f dB VB (IHc _ _ HB E0) HdB). }
      destruct A; try (apply Hrec; exact H).
      destruct B; try (apply Hrec; exact H).
      destruct (size_eqb m m0) eqn:Es; [|discriminate]. injection H as <-.
      intros f d Hd. destruct f as [|[|f]]; try discriminate Hd.
      cbn in Hd. cbn.
      unfold size_eqb in Es. rewrite Es in Hd. exact Hd.
    + (* collapse_sub *)
      intros A B v HA HB H. rewrite collapse_sub_S in H.
      cbn [getattr_A getattr_B bind] in H.
      assert (Hrec : (cA <- collapse fuel A ;;
                      cB <- collapse fuel B ;;
                      s <- py_sub cA cB ;; collapse_sub fuel s) = Ret v ->
                     keeps_shape (Sub A B) v).
      { clear H. intros H. bind_inv H. bind_inv H. bind_inv H.
        destruct (proj1 (collapse_kinds fuel) _ _ E) as [VA _].
        destruct (proj1 (collapse_kinds fuel) _ _ E0) as [VB _].
        assert (Es : a1 = Sub a a0).
        { unfold py_sub in E1.
          destruct a, a0; try discriminate VA; try discriminate VB;
            try discriminate E1;
            try (cbn [block_operand orb] in E1; injection E1 as <-; reflexivity).
          injection E1 as <-. exfalso.
          apply (proj1 (proj2 (proj2 (@stuck_on_value fuel (Num (x - x0)) v eq_refl)))).
          exact H. }
        subst a1.
        intros f d Hd. destruct f as [|f]; [discriminate|].
        apply (IHs a a0 v (@value_binary a VA) (@value_binary a0 VB) H 2).
        change (get_dims 2 (Sub a a0)) with (get_dims 2 (Add a a0)).
        change (get_dims (S f) (Sub A B)) with (get_dims (S f) (Add A B)) in Hd.
        apply (@get_dims_sum_values A B a a0 f d VA VB); try exact Hd.
        - intros HnA. apply (@collapse_number fuel A a HnA E).
        - intros HnB. apply (@collapse_number fuel B a0 HnB E0).
        - intros dA HdA. apply (@keeps_shape_dims_val A a f dA VA (IHc _ _ HA E) HdA).
        - intros dB HdB. apply (@keeps_shape_dims_val B a0 f dB VB (IHc _ _ HB E0) HdB). }
      destruct A; try (apply Hrec; exact H).
      destruct B; try (apply Hrec; exact H).
      destruct (size_eqb m m0) eqn:Es; [|discriminate]. injection H as <-.
      intros f d Hd. destruct f as [|[|f]]; try discriminate Hd.
      cbn in Hd. cbn.
      unfold size_eqb in Es. rewrite Es in Hd. exact Hd.
    + (* collapse_mul *)
      intros A B v HA HB H. rewrite collapse_mul_S in H.
      cbn [getattr_chain bind] in H.
      assert (Hrec : (cA <- collapse fuel A ;;
                      cB <- collapse fuel B ;;
                      p <- py_mul cA cB ;; collapse fuel p) = Ret v ->
                     keeps_shape (Mul [A; B]) v).
      { clear H. intros H. bind_inv H. bind_inv H. bind_inv H.
        destruct (proj1 (collapse_kinds fuel) _ _ E) as [VA _].
        destruct (proj1 (collapse_kinds fuel) _ _ E0) as [VB _].
        intros f d Hd. destruct f as [|f]; [discriminate|].
        pose proof (@get_dims_product_values A B a a0 f d VA VB
                      (fun dA HdA => @keeps_shape_dims_val A a f dA VA (IHc _ _ HA E) HdA)
                      (fun dB HdB => @keeps_shape_dims_val B a0 f dB VB (IHc _ _ HB E0) HdB)
                      Hd) as Hp.
        unfold py_mul in E1.
        destruct a, a0; try discriminate VA; try discriminate VB;
          try discriminate E1;
          try (cbn [block_operand orb] in E1; injection E1 as <-;
               pose proof (fun Hb => IHc _ v Hb H) as K;
               apply (K eq_refl 2); exact Hp). }
      destruct A; try (apply Hrec; exact H);
        destruct B; try (apply Hrec; exact H).
      * injection H as <-. intros f d Hd.
        destruct f as [|[|f]]; try discriminate Hd. cbn in Hd. exact Hd.
      * injection H as <-. intros f d Hd.
        destruct f as [|[|f]]; try discriminate Hd. cbn in Hd. exact Hd.
      * destruct (ncols m =? nrows m0) eqn:Ec; [|discriminate]. injection H as <-.
        intros f d Hd. destruct f as [|[|f]]; try discriminate Hd.
        cbn in Hd. rewrite Ec in Hd. exact Hd.
Qed.

(** X3.  On an expression whose products all have two operands, the
    value that [collapse] returns has the dimensions that [get_dims]
    infers from the expression, whenever both are defined. *)
Theorem collapse_keeps_shape (fuel f : nat) (E v : thing) (d : dims) :
  binary E = true ->
  collapse fuel E = Ret v ->
  get_dims f E = Ret d ->
  get_dims 1 v = Ret d.
Proof.
  intros HE Hc Hd.
  exact (proj1 (collapse_keeps_shape_all fuel) E v HE Hc f d Hd).
Qed.

Lemma collapse_keeps_shape_witness :
  get_dims 1 (Mat (mat_axpy (-1) (mat_scale 2 (ones 2 3)) (ones 2 3)))
  = Ret (DPair 2 3).
Proof.
  apply (@collapse_keeps_shape 4 3
           (Sub (Mul [Num 2; Mat (ones 2 3)]) (Mat (ones 2 3)))); reflexivity.
Defined.

(** ** Products of three matrices *)

Lemma dot_ext (n : nat) (f g : nat -> Z) :
  (forall k, k < n -> f k = g k) -> dot n f = dot n g.
Proof.
  induction n as [|n IH]; intros H.
  - reflexivity.
  - cbn [dot]. rewrite IH by (intros k Hk; apply H; lia).
    rewrite (H n) by lia. reflexivity.
Qed.

Lemma dot_plus (n : nat) (f g : nat -> Z) :
  dot n (fun k => (f k + g k)%Z) = (dot n f + dot n g)%Z.
Proof.
  induction n as [|n IH]; cbn [dot].
  - reflexivity.
  - rewrite IH. lia.
Qed.

Lemma dot_scale_l (n : nat) (c : Z) (f : nat -> Z) :
  dot n (fun k => (c * f k)%Z) = (c * dot n f)%Z.
Proof.
  induction n as [|n IH]; cbn [dot].
  - lia.
  - rewrite IH. lia.
Qed.

Lemma dot_scale_r (n : nat) (c : Z) (f : nat -> Z) :
  dot n (fun k => (f k * c)%Z) = (dot n f * c)%Z.
Proof.
  induction n as [|n IH]; cbn [dot].
  - lia.
  - rewrite IH. lia.
Qed.

Lemma dot_zero (n : nat) : dot n (fun _ => 0%Z) = 0%Z.
Proof.
  induction n as [|n IH]; cbn [dot]; [reflexivity|]. rewrite IH. reflexivity.
Qed.

Lemma dot_swap (n m : nat) (F : nat -> nat -> Z) :
  dot n (fun k => dot m (fun l => F k l)) = dot m (fun l => dot n (fun k => F k l)).
Proof.
  induction n as [|n IH]; cbn [dot].
  - symmetry. apply dot_zero.
  - rewrite IH. symmetry. apply dot_plus.
Qed.

Lemma mat_mult_assoc (A B C : matrix) :
  mat_eq (mat_mult A (mat_mult B C)) (mat_mult (mat_mult A B) C).
Proof.
  unfold mat_eq. cbn [mat_mult nrows ncols coeff].
  split; [reflexivity|]. split; [reflexivity|].
  intros i j _ _.
  transitivity (dot (ncols A)
                    (fun k => dot (ncols B)
                                  (fun l => (coeff A i k * coeff B k l * coeff C l j)%Z))).
  - apply dot_ext. intros k _. rewrite <- dot_scale_l.
    apply dot_ext. intros l _. lia.
  - rewrite dot_swap. apply dot_ext. intros l _.
    rewrite <- dot_scale_r. reflexivity.
Qed.

(** X4.  A chain of three matrices with compatible shapes collapses to
    the product A(BC); collapsing A*B first and multiplying the result
    by C gives (AB)C; the two matrices are equal entry by entry. *)
Theorem collapse_chain_associative (A B C : matrix) (fuel : nat) :
  ncols A = nrows B ->
  ncols B = nrows C ->
  exists AB,
    collapse (4 + fuel) (Mul [Mat A; Mat B; Mat C])
    = Ret (Mat (mat_mult A (mat_mult B C))) /\
    collapse (4 + fuel) (Mul [Mat A; Mat B]) = Ret (Mat AB) /\
    collapse (4 + fuel) (Mul [Mat AB; Mat C]) = Ret (Mat (mat_mult AB C)) /\
    mat_eq (mat_mult A (mat_mult B C)) (mat_mult AB C).
Proof.
  intros H1 H2. exists (mat_mult A B).
  split; [|split; [|split]].
  - apply collapse_mono with (fuel := 4); [|discriminate|lia].
    cbn. rewrite H2, Nat.eqb_refl. cbn. rewrite H1, Nat.eqb_refl. reflexivity.
  - apply collapse_mono with (fuel := 2); [|discriminate|lia].
    cbn. rewrite H1, Nat.eqb_refl. reflexivity.
  - apply collapse_mono with (fuel := 2); [|discriminate|lia].
    cbn. rewrite H2, Nat.eqb_refl. reflexivity.
  - apply mat_mult_assoc.
Qed.

Lemma collapse_chain_associative_witness :
  exists AB,
    collapse 4 (Mul [Mat (ones 2 3); Mat (ones 3 4); Mat (ones 4 2)])
    = Ret (Mat (mat_mult (ones 2 3) (mat_mult (ones 3 4) (ones 4 2)))) /\
    collapse 4 (Mul [Mat (ones 2 3); Mat (ones 3 4)]) = Ret (Mat AB) /\
    collapse 4 (Mul [Mat AB; Mat (ones 4 2)]) = Ret (Mat (mat_mult AB (ones 4 2))) /\
    mat_eq (mat_mult (ones 2 3) (mat_mult (ones 3 4) (ones 4 2)))
           (mat_mult AB (ones 4 2)).
Proof.
  apply (@collapse_chain_associative (ones 2 3) (ones 3 4) (ones 4 2) 0);
    reflexivity.
Defined.

(** ** Block vectors *)

Lemma mapM_get_local (vs : list (list Z)) : mapM get_local (map Vec vs) = Ret vs.
Proof.
  induction vs as [|v vs IH].
  - reflexivity.
  - cbn [map mapM get_local bind]. rewrite IH. reflexivity.
Qed.

Lemma length_concat_total (vs : list (list Z)) :
  List.length (List.concat vs) = total (map (@List.length Z) vs).
Proof.
  induction vs as [|v vs IH].
  - reflexivity.
  - cbn [List.concat map total fold_right]. rewrite length_app, IH. reflexivity.
Qed.

Lemma nth_concat_offset (vs : list (list Z)) :
  forall b k,
    b < List.length vs ->
    k < List.length (nth b vs []) ->
    nth (offset (map (@List.length Z) vs) b + k) (List.concat vs) 0%Z
    = nth k (nth b vs []) 0%Z.
Proof.
  induction vs as [|v vs IH]; intros b k Hb Hk.
  - cbn in Hb. lia.
  - destruct b as [|b].
    + cbn [nth] in Hk. unfold offset.
      cbn [map firstn total fold_right Nat.add List.concat nth].
      apply app_nth1. exact Hk.
    + cbn [nth] in Hk |- *. cbn in Hb. unfold offset.
      cbn [map firstn total fold_right List.concat].
      fold (total (firstn b (map (@List.length Z) vs))).
      fold (offset (map (@List.length Z) vs) b).
      rewrite app_nth2 by lia.
      replace (List.length v + offset (map (@List.length Z) vs) b + k - List.length v)
        with (offset (map (@List.length Z) vs) b + k) by lia.
      apply IH; [lia|exact Hk].
Qed.

(** X5.  A block vector of vector handles is converted to the vector
    of their local values in block order: its length is the sum of the
    lengths, and the entry at the offset of component [b] plus [k] is
    entry [k] of component [b]. *)
Theorem convert_block_vec (fuel : nat) (algorithm : bool) (vs : list (list Z)) :
  vs <> [] ->
  convert fuel (BlockVec (map Vec vs)) algorithm = Ret (Plain (Vec (List.concat vs))) /\
  List.length (List.concat vs) = total (map (@List.length Z) vs) /\
  forall b k,
    b < List.length vs ->
    k < List.length (nth b vs []) ->
    nth (offset (map (@List.length Z) vs) b + k) (List.concat vs) 0%Z
    = nth k (nth b vs []) 0%Z.
Proof.
  intros Hne. split; [|split].
  - unfold convert, block_vec_to_numpy. rewrite mapM_get_local. cbn [bind].
    destruct vs as [|v vs]; [contradiction|]. reflexivity.
  - apply length_concat_total.
  - apply nth_concat_offset.
Qed.

Lemma convert_block_vec_witness :
  convert 0 (BlockVec [Vec [1%Z; 2%Z; 3%Z]; Vec [4%Z; 5%Z]]) true
  = Ret (Plain (Vec [1%Z; 2%Z; 3%Z; 4%Z; 5%Z])) /\
  List.length (List.concat [[1%Z; 2%Z; 3%Z]; [4%Z; 5%Z]]) = 5 /\
  nth 4 (List.concat [[1%Z; 2%Z; 3%Z]; [4%Z; 5%Z]]) 0%Z = 5%Z.
Proof.
  destruct (@convert_block_vec 0 true [[1%Z; 2%Z; 3%Z]; [4%Z; 5%Z]]) as [H1 [H2 H3]].
  - discriminate.
  - split; [exact H1|]. split; [exact H2|].
    apply (H3 1 1); simpl; lia.
Defined.

(** X6.  A block vector with a component that is not a vector handle
    is not converted: the first such component raises an
    AttributeError; an empty block vector raises a ValueError. *)
Theorem convert_block_vec_errors (fuel : nat) (algorithm : bool) :
  (forall bs x,
      In x bs -> is_petsc_vec x = false ->
      convert fuel (BlockVec bs) algorithm = Raise AttributeError) /\
  convert fuel (BlockVec []) algorithm = Raise ValueError.
Proof.
  split; [|reflexivity].
  intros bs x Hx Hv. unfold convert, block_vec_to_numpy.
  rewrite (@mapM_raise _ _ get_local AttributeError bs); [reflexivity| |].
  - intros y _. destruct y; try (right; reflexivity).
    left. eexists. reflexivity.
  - exists x. split; [exact Hx|]. destruct x; try reflexivity. discriminate Hv.
Qed.

Lemma convert_block_vec_errors_witness :
  convert 0 (BlockVec [Vec [1%Z]; Num 2; Vec [3%Z]]) true = Raise AttributeError.
Proof.
  apply (proj1 (convert_block_vec_errors 0 true) _ (Num 2)).
  - right. left. reflexivity.
  - reflexivity.
Defined.

(** ** What [bmat_sizes] and [convert] return on a block matrix *)

Lemma bmat_sizes_returned (fuel : nat) (b : block_mat) (sz : sizes) :
  bmat_sizes fuel (BlockMat b) = Ret sz ->
  exists rs cs,
    sz = MatSizes rs cs /\
    mapM (fun i => axis_size fuel 0 (row_cells b i)) (seq 0 (n_brows b)) = Ret rs /\
    mapM (fun j => axis_size fuel 1 (col_cells b j)) (seq 0 (n_bcols b)) = Ret cs.
Proof.
  intros H. rewrite bmat_sizes_phases in H. bind_inv H. bind_inv H.
  injection H as <-. exists a, a0. repeat split; assumption.
Qed.

(** X7.  When [bmat_sizes] returns on a block matrix, it returns one
    size per block row and per block column; every cell with a shape
    then has the sizes of its row and of its column, and every row and
    every column has such a cell. *)
Theorem bmat_sizes_sound (fuel : nat) (b : block_mat) (sz : sizes) :
  bmat_sizes fuel (BlockMat b) = Ret sz ->
  exists rs cs,
    sz = MatSizes rs cs /\
    List.length rs = n_brows b /\
    List.length cs = n_bcols b /\
    (forall i j r c,
        i < n_brows b -> j < n_bcols b ->
        get_dims fuel (blocks b i j) = Ret (DPair r c) ->
        r = nth i rs 0 /\ c = nth j cs 0) /\
    (forall i, i < n_brows b ->
               exists j r c, j < n_bcols b /\
                             get_dims fuel (blocks b i j) = Ret (DPair r c)) /\
    (forall j, j < n_bcols b ->
               exists i r c, i < n_brows b /\
                             get_dims fuel (blocks b i j) = Ret (DPair r c)).
Proof.
  intros H.
  pose proof (@bmat_sizes_returns_inferable fuel b sz H) as Hinf.
  destruct (bmat_sizes_returned _ _ H) as [rs [cs [-> [Hrs Hcs]]]].
  assert (Hlr : List.length rs = n_brows b).
  { rewrite (mapM_length _ _ Hrs). apply length_seq. }
  assert (Hlc : List.length cs = n_bcols b).
  { rewrite (mapM_length _ _ Hcs). apply length_seq. }
  assert (Hrow : forall i, i < n_brows b ->
                           axis_size fuel 0 (row_cells b i) = Ret (nth i rs 0)).
  { intros i Hi. pose proof (@mapM_nth _ _ _ _ _ 0 0 Hrs i) as K.
    rewrite length_seq, seq_nth in K by exact Hi. apply K. exact Hi. }
  assert (Hcol : forall j, j < n_bcols b ->
                           axis_size fuel 1 (col_cells b j) = Ret (nth j cs 0)).
  { intros j Hj. pose proof (@mapM_nth _ _ _ _ _ 0 0 Hcs j) as K.
    rewrite length_seq, seq_nth in K by exact Hj. apply K. exact Hj. }
  exists rs, cs. split; [reflexivity|]. split; [exact Hlr|]. split; [exact Hlc|].
  split; [|split].
  - intros i j r c Hi Hj E. split.
    + apply (proj1 (@axis_size_ret_inv fuel 0 (row_cells b i) (nth i rs 0)
                      (@row_cells_inferable fuel b Hinf i Hi) (Hrow i Hi))
                   (blocks b i j) r c); [|exact E].
      apply in_row_cells. exists j. split; [exact Hj|reflexivity].
    + apply (proj1 (@axis_size_ret_inv fuel 1 (col_cells b j) (nth j cs 0)
                      (@col_cells_inferable fuel b Hinf j Hj) (Hcol j Hj))
                   (blocks b i j) r c); [|exact E].
      apply in_col_cells. exists i. split; [exact Hi|reflexivity].
  - intros i Hi.
    destruct (proj2 (@axis_size_ret_inv fuel 0 (row_cells b i) (nth i rs 0)
                       (@row_cells_inferable fuel b Hinf i Hi) (Hrow i Hi)))
      as [x [r [c [Hx E]]]].
    apply in_row_cells in Hx. destruct Hx as [j [Hj ->]].
    exists j, r, c. split; assumption.
  - intros j Hj.
    destruct (proj2 (@axis_size_ret_inv fuel 1 (col_cells b j) (nth j cs 0)
                       (@col_cells_inferable fuel b Hinf j Hj) (Hcol j Hj)))
      as [x [r [c [Hx E]]]].
    apply in_col_cells in Hx. destruct Hx as [i [Hi ->]].
    exists i, r, c. split; assumption.
Qed.

Lemma bmat_sizes_sound_witness :
  exists rs cs,
    MatSizes [3; 2] [3; 2] = MatSizes rs cs /\
    List.length rs = 2 /\ List.length cs = 2.
Proof.
  destruct (@bmat_sizes_sound 1 grid_with_number (MatSizes [3; 2] [3; 2]) eq_refl)
    as [rs [cs [E [Hr [Hc _]]]]].
  exists rs, cs. repeat split; assumption.
Defined.

Lemma convert_block_result (fuel : nat) (rs cs : list nat) (i j : nat) (x y : thing) :
  convert_block fuel rs cs i j x = Ret y ->
  is_petsc_mat y || is_number y = true ->
  is_petsc_mat y = true \/ y = Num 0.
Proof.
  unfold convert_block. intros H Hy. bind_inv H.
  destruct a as [z|m|w|chain|A B|A B|A|A|name];
    try (injection H as <-; cbn in Hy; try discriminate Hy; left; reflexivity).
  destruct (z =? 0)%Z.
  - injection H as <-. right. reflexivity.
  - destruct (nth i rs 0 =? nth j cs 0); [|discriminate].
    injection H as <-. left. reflexivity.
Qed.

(** X8.  When the monolithic assembly is declined, [convert] returns a
    block matrix of the shape of its argument in which every block is
    a matrix handle or the number 0: no other number and no pending
    expression is left. *)
Theorem convert_opt_out (fuel : nat) (b : block_mat) (r : pyobj) :
  convert fuel (BlockMat b) false = Ret r ->
  exists g,
    r = BlockMat g /\
    n_brows g = n_brows b /\
    n_bcols g = n_bcols b /\
    forall i j, i < n_brows b -> j < n_bcols b ->
                is_petsc_mat (blocks g i j) = true \/ blocks g i j = Num 0.
Proof.
  intros H. unfold convert in H. bind_inv H.
  destruct (bmat_sizes_sound _ _ E) as [rs [cs [-> [Hlr [Hlc _]]]]].
  bind_inv H.
  destruct (forallb (forallb (fun x => is_petsc_mat x || is_number x)) a) eqn:Ef;
    [|discriminate].
  injection H as <-. eexists. split; [reflexivity|].
  cbn [n_brows n_bcols blocks]. split; [exact Hlr|]. split; [exact Hlc|].
  intros i j Hi Hj. unfold grid_get.
  rewrite Hlr, Hlc in E0.
  assert (Hla : List.length a = n_brows b).
  { rewrite (mapM_length _ _ E0). apply length_seq. }
  pose proof (@mapM_nth _ _ _ _ _ 0 [] E0 i) as Hrow.
  rewrite length_seq, seq_nth in Hrow by exact Hi. specialize (Hrow Hi).
  cbn [Nat.add] in Hrow.
  assert (Hli : List.length (nth i a []) = n_bcols b).
  { rewrite (mapM_length _ _ Hrow). apply length_seq. }
  pose proof (@mapM_nth _ _ _ _ _ 0 (Num 0) Hrow j) as Hcell.
  rewrite length_seq, seq_nth in Hcell by exact Hj. specialize (Hcell Hj).
  cbn [Nat.add] in Hcell.
  apply (convert_block_result _ _ _ _ _ _ Hcell).
  assert (Hin : In (nth i a []) a) by (apply nth_In; lia).
  pose proof (proj1 (forallb_forall _ _) Ef _ Hin) as Hr.
  apply (proj1 (forallb_forall _ _) Hr). apply nth_In. lia.
Qed.

Lemma convert_opt_out_witness :
  exists g,
    convert 1 (BlockMat grid_diag) false = Ret (BlockMat g) /\
    n_brows g = 2 /\ n_bcols g = 2 /\
    (is_petsc_mat (blocks g 0 0) = true \/ blocks g 0 0 = Num 0) /\
    (is_petsc_mat (blocks g 1 1) = true \/ blocks g 1 1 = Num 0).
Proof.
  assert (E : exists r, convert 1 (BlockMat grid_diag) false = Ret r).
  { eexists. reflexivity. }
  destruct E as [r E].
  destruct (@convert_opt_out 1 grid_diag r E) as [g [-> [Hr [Hc Hcells]]]].
  exists g. split; [exact E|]. split; [exact Hr|]. split; [exact Hc|].
  split; apply Hcells; simpl; lia.
Defined.

(** ** The constructor of [ii_Function] *)

Lemma wrap_vectors_ok (vs : list (list Z)) :
  forall W,
    map (@List.length Z) vs = map dim W ->
    exists fs,
      wrap_vectors (map CompVector vs) W = inr fs /\
      map vector fs = vs /\
      map function_space fs = W.
Proof.
  induction vs as [|v vs IH]; intros W H.
  - destruct W; [|discriminate]. exists []. repeat split; reflexivity.
  - destruct W as [|Wi W]; [discriminate|].
    cbn [map] in H. injection H as Hv Hvs.
    destruct (IH W Hvs) as [fs [E [E1 E2]]].
    exists (mkFunction Wi v :: fs). cbn [map wrap_vectors].
    rewrite Hv, Nat.eqb_refl, E. cbn [vector function_space].
    rewrite E1, E2. repeat split; reflexivity.
Qed.

Lemma wrap_vectors_bad (vs : list (list Z)) :
  forall W,
    List.length vs = List.length W ->
    map (@List.length Z) vs <> map dim W ->
    wrap_vectors (map CompVector vs) W = inl DimMismatch.
Proof.
  induction vs as [|v vs IH]; intros W Hl Hne.
  - destruct W; [|discriminate]. exfalso. apply Hne. reflexivity.
  - destruct W as [|Wi W]; [discriminate|].
    cbn [map wrap_vectors].
    destruct (List.length v =? dim Wi) eqn:Ev; [|reflexivity].
    apply Nat.eqb_eq in Ev.
    rewrite IH; [reflexivity| |].
    + cbn in Hl. lia.
    + intros Hm. apply Hne. cbn [map]. rewrite Ev, Hm. reflexivity.
Qed.

(** X9.  Built from vectors, an [ii_Function] holds exactly these
    vectors, one function per space, provided there is at least one and
    each has the dimension of its space; a different number of vectors
    and spaces, or a vector of another length, fails the assertions,
    and an empty list of components stops on [first]. *)
Theorem ii_init_from_vectors (W : list FunctionSpace) (vs : list (list Z)) :
  (vs <> [] ->
   map (@List.length Z) vs = map dim W ->
   exists f,
     ii_init W (Some (map CompVector vs)) = inr f /\
     ii_vectors f = vs /\
     map function_space (functions f) = W /\
     ii_len f = Z.of_nat (List.length W)) /\
  (List.length vs <> List.length W ->
   ii_init W (Some (map CompVector vs)) = inl LengthMismatch) /\
  (List.length vs = List.length W ->
   map (@List.length Z) vs <> map dim W ->
   ii_init W (Some (map CompVector vs)) = inl DimMismatch) /\
  ii_init [] (Some []) = inl StopIteration.
Proof.
  split; [|split; [|split]].
  - intros Hne Hm.
    destruct (wrap_vectors_ok vs W Hm) as [fs [E [E1 E2]]].
    exists (mk_ii_Function fs). unfold ii_init.
    assert (Hl : List.length (map CompVector vs) = List.length W).
    { rewrite length_map. rewrite <- (length_map (@List.length Z) vs), Hm.
      apply length_map. }
    rewrite Hl, Nat.eqb_refl.
    destruct vs as [|v vs]; [contradiction|].
    change (map CompVector (v :: vs)) with (CompVector v :: map CompVector vs) in *.
    rewrite E. unfold ii_vectors, ii_len. cbn [functions].
    split; [reflexivity|]. split; [exact E1|]. split; [exact E2|].
    rewrite <- E2, length_map. reflexivity.
  - intros Hl. unfold ii_init. rewrite length_map.
    destruct (List.length vs =? List.length W) eqn:E; [|reflexivity].
    apply Nat.eqb_eq in E. contradiction.
  - intros Hl Hne. unfold ii_init. rewrite length_map, Hl, Nat.eqb_refl.
    destruct vs as [|v vs].
    + destruct W; [|discriminate]. exfalso. apply Hne. reflexivity.
    + change (map CompVector (v :: vs)) with (CompVector v :: map CompVector vs).
      change (CompVector v :: map CompVector vs) with (map CompVector (v :: vs)).
      rewrite (wrap_vectors_bad (v :: vs) W Hl Hne). reflexivity.
  - reflexivity.
Qed.

Lemma ii_init_from_vectors_witness :
  exists f,
    ii_init [mkSpace "V" 3; mkSpace "Q" 2]
            (Some [CompVector [1%Z; 2%Z; 3%Z]; CompVector [4%Z; 5%Z]]) = inr f /\
    ii_vectors f = [[1%Z; 2%Z; 3%Z]; [4%Z; 5%Z]] /\
    ii_len f = 2%Z.
Proof.
  destruct (proj1 (ii_init_from_vectors [mkSpace "V" 3; mkSpace "Q" 2]
                                        [[1%Z; 2%Z; 3%Z]; [4%Z; 5%Z]]))
    as [f [E [Ev [_ El]]]].
  - discriminate.
  - reflexivity.
  - exists f. split; [exact E|]. split; [exact Ev|exact El].
Defined.

Lemma concat_repeat_zero (W : list FunctionSpace) :
  List.concat (map vector (map new_function W))
  = repeat 0%Z (total (map dim W)).
Proof.
  induction W as [|Wi W IH].
  - reflexivity.
  - cbn [map List.concat total fold_right new_function vector].
    rewrite IH. fold (total (map dim W)). symmetry. apply repeat_app.
Qed.

(** X10.  The block vector of an [ii_Function] converts to one flat
    vector whose length is the sum of the dimensions of the spaces: all
    zeros for a freshly built one, the given vectors in order for one
    built from vectors. *)
Theorem ii_block_vec_flat (fuel : nat) (algorithm : bool) (W : list FunctionSpace) :
  W <> [] ->
  (exists f,
      ii_init W None = inr f /\
      ii_len f = Z.of_nat (List.length W) /\
      convert fuel (ii_block_vec f) algorithm
      = Ret (Plain (Vec (repeat 0%Z (total (map dim W)))))) /\
  (forall vs,
      map (@List.length Z) vs = map dim W ->
      exists f,
        ii_init W (Some (map CompVector vs)) = inr f /\
        convert fuel (ii_block_vec f) algorithm = Ret (Plain (Vec (List.concat vs))) /\
        List.length (List.concat vs) = total (map dim W)).
Proof.
  intros HW. split.
  - exists (mk_ii_Function (map new_function W)).
    split; [reflexivity|]. split.
    + unfold ii_len. cbn [functions]. rewrite length_map. reflexivity.
    + unfold ii_block_vec, ii_vectors. cbn [functions].
      destruct (@convert_block_vec fuel algorithm (map vector (map new_function W)))
        as [E _].
      * destruct W; [contradiction|discriminate].
      * rewrite E, concat_repeat_zero. reflexivity.
  - intros vs Hm.
    assert (Hne : vs <> []).
    { intros ->. destruct W; [contradiction|discriminate]. }
    destruct (proj1 (ii_init_from_vectors W vs) Hne Hm) as [f [E [Ev _]]].
    exists f. split; [exact E|].
    unfold ii_block_vec. rewrite Ev.
    destruct (@convert_block_vec fuel algorithm vs Hne) as [Ec [El _]].
    split; [exact Ec|]. rewrite El, Hm. reflexivity.
Qed.

Lemma ii_block_vec_flat_witness :
  exists f,
    ii_init [mkSpace "V" 3; mkSpace "Q" 2] None = inr f /\
    ii_len f = 2%Z /\
    convert 0 (ii_block_vec f) true
    = Ret (Plain (Vec [0%Z; 0%Z; 0%Z; 0%Z; 0%Z])).
Proof.
  destruct (@ii_block_vec_flat 0 true [mkSpace "V" 3; mkSpace "Q" 2]) as [H _].
  - discriminate.
  - exact H.
Defined.

(** ** Numbers as operands *)

(** X11.  Numbers alone: the product of two numbers collapses to their
    product; a chain of three numbers, and the sum or the difference of
    two numbers, raise an AttributeError, because the reducer is
    called again on the plain number it has just computed. *)
Theorem collapse_numbers (a b c : Z) (fuel : nat) :
  collapse (3 + fuel) (Mul [Num a; Num b]) = Ret (Num (a * b)) /\
  collapse (4 + fuel) (Mul [Num a; Num b; Num c]) = Raise AttributeError /\
  collapse (3 + fuel) (Add (Num a) (Num b)) = Raise AttributeError /\
  collapse (3 + fuel) (Sub (Num a) (Num b)) = Raise AttributeError.
Proof.
  split; [|split; [|split]].
  - apply collapse_mono with (fuel := 3); [reflexivity|discriminate|lia].
  - apply collapse_mono with (fuel := 4); [reflexivity|discriminate|lia].
  - apply collapse_mono with (fuel := 3); [reflexivity|discriminate|lia].
  - apply collapse_mono with (fuel := 3); [reflexivity|discriminate|lia].
Qed.

Lemma collapse_sum_number_stuck (x y : thing) :
  is_value x = true -> is_value y = true ->
  py_add x y = Ret (Add x y) ->
  is_petsc_mat x && is_petsc_mat y = false ->
  forall fuel, collapse_add fuel (Add x y) = OutOfFuel.
Proof.
  intros Vx Vy Hp Hm. induction fuel as [|fuel IH].
  - reflexivity.
  - rewrite collapse_add_S. cbn [getattr_A getattr_B bind].
    assert (Hrec : (cA <- collapse fuel x ;;
                    cB <- collapse fuel y ;;
                    s <- py_add cA cB ;; collapse_add fuel s) = OutOfFuel).
    { destruct fuel as [|fuel']; [reflexivity|].
      rewrite !collapse_leaf by assumption. cbn [bind]. rewrite Hp. cbn [bind].
      exact IH. }
    destruct x; try exact Hrec. destruct y; try exact Hrec. discriminate Hm.
Qed.

Lemma collapse_difference_number_stuck (x y : thing) :
  is_value x = true -> is_value y = true ->
  py_sub x y = Ret (Sub x y) ->
  is_petsc_mat x && is_petsc_mat y = false ->
  forall fuel, collapse_sub fuel (Sub x y) = OutOfFuel.
Proof.
  intros Vx Vy Hp Hm. induction fuel as [|fuel IH].
  - reflexivity.
  - rewrite collapse_sub_S. cbn [getattr_A getattr_B bind].
    assert (Hrec : (cA <- collapse fuel x ;;
                    cB <- collapse fuel y ;;
                    s <- py_sub cA cB ;; collapse_sub fuel s) = OutOfFuel).
    { destruct fuel as [|fuel']; [reflexivity|].
      rewrite !collapse_leaf by assumption. cbn [bind]. rewrite Hp. cbn [bind].
      exact IH. }
    destruct x; try exact Hrec. destruct y; try exact Hrec. discriminate Hm.
Qed.

(** X12.  A sum or a difference of a matrix handle and a number,
    whatever the number, is never collapsed: [collapse] returns at no
    call depth, for [A + z], [z + A] and [A - z]. *)
Theorem collapse_matrix_and_number (m : matrix) (z : Z) (fuel : nat) :
  collapse fuel (Add (Mat m) (Num z)) = OutOfFuel /\
  collapse fuel (Add (Num z) (Mat m)) = OutOfFuel /\
  collapse fuel (Sub (Mat m) (Num z)) = OutOfFuel.
Proof.
  destruct fuel as [|fuel]; [repeat split; reflexivity|].
  rewrite !collapse_S. split; [|split].
  - apply collapse_sum_number_stuck; reflexivity.
  - apply collapse_sum_number_stuck; reflexivity.
  - apply collapse_difference_number_stuck; reflexivity.
Qed.

(** ** Reducers composed *)

(** X13.  The difference [s*C - C] collapses in two steps, as the
    reducers are written: a copy of [C] is scaled by [s], and [-1]
    times [C] is added to a copy of the result (scale, then axpy); the
    matrix returned has the shape of [C].  In exact arithmetic, which
    is the arithmetic of the entries here and not that of the doubles a
    PETSc matrix stores (rounding and overflow are left out), its
    entries are [s - 1] times those of [C], and for [s = 2] it is [C]
    itself, entry by entry. *)
Theorem collapse_scaled_difference (s : Z) (C : matrix) (fuel : nat) :
  exists m,
    collapse (4 + fuel) (Sub (Mul [Num s; Mat C]) (Mat C)) = Ret (Mat m) /\
    m = mat_axpy (-1) (mat_scale s C) C /\
    mat_size m = mat_size C /\
    mat_eq m (mat_scale (s - 1) C) /\
    (s = 2%Z -> mat_eq m C).
Proof.
  exists (mat_axpy (-1) (mat_scale s C) C).
  split; [|split; [|split; [|split]]].
  - apply collapse_mono with (fuel := 4); [|discriminate|lia].
    cbn. unfold size_eqb. cbn [mat_scale nrows ncols].
    rewrite !Nat.eqb_refl. reflexivity.
  - reflexivity.
  - reflexivity.
  - unfold mat_eq. cbn [mat_axpy mat_scale nrows ncols coeff].
    repeat split; try reflexivity. intros i j _ _. ring.
  - intros ->. unfold mat_eq. cbn [mat_axpy mat_scale nrows ncols coeff].
    repeat split; try reflexivity. intros i j _ _. ring.
Qed.

Lemma collapse_scaled_difference_witness :
  exists m,
    collapse 4 (Sub (Mul [Num 2; Mat (ones 2 3)]) (Mat (ones 2 3))) = Ret (Mat m) /\
    mat_eq m (ones 2 3).
Proof.
  destruct (collapse_scaled_difference 2 (ones 2 3) 0) as [m [E [_ [_ [_ H]]]]].
  exists m. split; [exact E|]. apply H. reflexivity.
Defined.

(** X14.  Transposing in two steps works where the nested transpose
    does not: the transpose of a matrix handle collapses to a handle
    with the sizes swapped, and the transpose of that handle collapses
    to a matrix equal to the first, entry by entry. *)
Theorem collapse_transpose_twice (m : matrix) (fuel : nat) :
  exists t w,
    collapse (2 + fuel) (Tr (Mat m)) = Ret (Mat t) /\
    nrows t = ncols m /\ ncols t = nrows m /\
    collapse (2 + fuel) (Tr (Mat t)) = Ret (Mat w) /\
    mat_eq w m.
Proof.
  exists (mat_transpose m), (mat_transpose (mat_transpose m)).
  split; [reflexivity|]. split; [reflexivity|]. split; [reflexivity|].
  split; [reflexivity|]. apply mat_transpose_involutive.
Qed.

(** ** [convert] works on the collapsed blocks *)

Lemma mapM_ext_in {A B : Type} (f g : A -> outcome B) (l : list A) :
  (forall x, In x l -> f x = g x) -> mapM f l = mapM g l.
Proof.
  induction l as [|a l IH]; intros H.
  - reflexivity.
  - cbn [mapM]. rewrite (H a) by (left; reflexivity).
    rewrite IH by (intros x Hx; apply H; right; exact Hx). reflexivity.
Qed.

Section COLLAPSED_BLOCKS.

Variable fuel : nat.
Variables b b' : block_mat.
Variable sz : sizes.

Hypothesis same_rows : n_brows b' = n_brows b.
Hypothesis same_cols : n_bcols b' = n_bcols b.

Hypothesis blocks_collapsed :
  forall i j, i < n_brows b -> j < n_bcols b ->
              binary (blocks b i j) = true /\
              collapse fuel (blocks b i j) = Ret (blocks b' i j).

Hypothesis sizes_returned : bmat_sizes fuel (BlockMat b) = Ret sz.

Lemma collapsed_block_value (i j : nat) :
  i < n_brows b -> j < n_bcols b ->
  1 <= fuel /\ is_value (blocks b' i j) = true.
Proof.
  intros Hi Hj. destruct (blocks_collapsed Hi Hj) as [_ E]. split.
  - destruct fuel; [discriminate E|lia].
  - apply (proj1 (collapse_returns_value _ _ E)).
Qed.

Lemma collapsed_block_dims (i j : nat) :
  i < n_brows b -> j < n_bcols b ->
  get_dims fuel (blocks b' i j) = get_dims fuel (blocks b i j).
Proof.
  intros Hi Hj. destruct (blocks_collapsed Hi Hj) as [Hb E].
  destruct (collapsed_block_value Hi Hj) as [Hf _].
  assert (Hd : exists d, get_dims fuel (blocks b i j) = Ret d).
  { destruct (@bmat_sizes_returns_inferable fuel b sz sizes_returned i j Hi Hj)
      as [H|[r [c H]]]; eexists; exact H. }
  destruct Hd as [d Hd]. rewrite Hd.
  apply (@get_dims_mono 1 fuel); [|discriminate|exact Hf].
  apply (@collapse_keeps_shape fuel fuel (blocks b i j) (blocks b' i j) d Hb E Hd).
Qed.

Lemma collapsed_block_again (i j : nat) :
  i < n_brows b -> j < n_bcols b ->
  collapse fuel (blocks b' i j) = collapse fuel (blocks b i j).
Proof.
  intros Hi Hj. destruct (blocks_collapsed Hi Hj) as [_ E].
  destruct (collapsed_block_value Hi Hj) as [Hf Hv]. rewrite E.
  destruct fuel as [|n]; [lia|]. apply collapse_leaf. exact Hv.
Qed.

Lemma collapsed_axis_rows (i : nat) :
  i < n_brows b ->
  axis_size fuel 0 (row_cells b' i) = axis_size fuel 0 (row_cells b i).
Proof.
  intros Hi. unfold axis_size, row_cells. rewrite same_cols, !mapM_map.
  rewrite (@mapM_ext_in _ _ (fun j => get_dims fuel (blocks b' i j))
                        (fun j => get_dims fuel (blocks b i j))); [reflexivity|].
  intros j Hj. apply in_seq in Hj. apply collapsed_block_dims; lia.
Qed.

Lemma collapsed_axis_cols (j : nat) :
  j < n_bcols b ->
  axis_size fuel 1 (col_cells b' j) = axis_size fuel 1 (col_cells b j).
Proof.
  intros Hj. unfold axis_size, col_cells. rewrite same_rows, !mapM_map.
  rewrite (@mapM_ext_in _ _ (fun i => get_dims fuel (blocks b' i j))
                        (fun i => get_dims fuel (blocks b i j))); [reflexivity|].
  intros i Hi. apply in_seq in Hi. apply collapsed_block_dims; lia.
Qed.

Lemma collapsed_sizes : bmat_sizes fuel (BlockMat b') = bmat_sizes fuel (BlockMat b).
Proof.
  rewrite !bmat_sizes_phases, same_rows, same_cols.
  rewrite (@mapM_ext_in _ _ (fun i => axis_size fuel 0 (row_cells b' i))
                        (fun i => axis_size fuel 0 (row_cells b i))).
  - rewrite (@mapM_ext_in _ _ (fun j => axis_size fuel 1 (col_cells b' j))
                          (fun j => axis_size fuel 1 (col_cells b j))).
    + reflexivity.
    + intros j Hj. apply in_seq in Hj. apply collapsed_axis_cols. lia.
  - intros i Hi. apply in_seq in Hi. apply collapsed_axis_rows. lia.
Qed.

Lemma collapsed_convert (algorithm : bool) :
  convert fuel (BlockMat b') algorithm = convert fuel (BlockMat b) algorithm.
Proof.
  unfold convert. rewrite collapsed_sizes, sizes_returned. cbn [bind].
  destruct (bmat_sizes_sound _ _ sizes_returned) as [rs [cs [Esz [Hlr [Hlc _]]]]].
  rewrite Esz.
  rewrite (@mapM_ext_in _ _
             (fun i => mapM (fun j => convert_block fuel rs cs i j (blocks b' i j))
                            (seq 0 (List.length cs)))
             (fun i => mapM (fun j => convert_block fuel rs cs i j (blocks b i j))
                            (seq 0 (List.length cs)))); [reflexivity|].
  intros i Hi. apply in_seq in Hi. apply mapM_ext_in.
  intros j Hj. apply in_seq in Hj. unfold convert_block.
  rewrite collapsed_block_again by lia. reflexivity.
Qed.

End COLLAPSED_BLOCKS.

(** X15.  [convert] sees a block matrix through its collapsed blocks:
    when the products in the blocks are binary, every block collapses
    and [bmat_sizes] returns, the block matrix of the collapsed blocks
    has the same sizes and is converted to the same result. *)
Theorem convert_collapsed_blocks (fuel : nat) (b b' : block_mat) (sz : sizes)
        (algorithm : bool) :
  n_brows b' = n_brows b ->
  n_bcols b' = n_bcols b ->
  (forall i j, i < n_brows b -> j < n_bcols b ->
               binary (blocks b i j) = true /\
               collapse fuel (blocks b i j) = Ret (blocks b' i j)) ->
  bmat_sizes fuel (BlockMat b) = Ret sz ->
  bmat_sizes fuel (BlockMat b') = Ret sz /\
  convert fuel (BlockMat b') algorithm = convert fuel (BlockMat b) algorithm.
Proof.
  intros Hr Hc Hb Hs. split.
  - rewrite (@collapsed_sizes fuel b b' sz Hr Hc Hb Hs). exact Hs.
  - apply (@collapsed_convert fuel b b' sz Hr Hc Hb Hs).
Qed.

Lemma convert_collapsed_blocks_witness :
  bmat_sizes 4 (BlockMat grid_binary_collapsed) = Ret (MatSizes [3; 2] [3; 2]) /\
  convert 4 (BlockMat grid_binary_collapsed) true
  = convert 4 (BlockMat grid_binary) true.
Proof.
  apply (@convert_collapsed_blocks 4 grid_binary grid_binary_collapsed
                                   (MatSizes [3; 2] [3; 2]) true).
  - reflexivity.
  - reflexivity.
  - intros i j Hi Hj.
    destruct i as [|[|i]]; destruct j as [|[|j]];
      try (simpl in Hi; lia); try (simpl in Hj; lia);
      split; reflexivity.
  - reflexivity.
Defined.
